(** * Offline-caching service worker (sw.js): model and verification

    The worker's event listeners are embedded as computations in a small
    promise monad over an explicit cache storage.  The browser's Cache API
    and the network are the environment: an [Env] fixes, for one run, what
    the network answers and which storage operations are rejected.

    A promise is modelled by the way it ends ([Outcome]).  Tasks that run
    concurrently in the browser are run one after the other here; the store
    a listener leaves behind is the store once its background writes have
    settled.  Where the order matters, in the asset branch, whose write and
    trimming are both left unawaited, the point at which the write lands is
    a parameter ([respond_asset_at]).  Elapsed time is not modelled. *)

From Stdlib Require Import String Ascii ZArith List Bool Lia.
From stdpp Require Import gmap strings list fin_maps pretty.

Local Open Scope string_scope.
Local Open Scope Z_scope.

(** ** JavaScript string methods used by the worker *)

(** [s.startsWith(p)] *)
Definition startsWith (s p : string) : bool := String.prefix p s.

(** [s.includes(p)]: [p] occurs at some position of [s]. *)
Fixpoint includes (s p : string) : bool :=
  if String.prefix p s then true
  else match s with
       | EmptyString => false
       | String _ s' => includes s' p
       end.

(** [s.endsWith(p)]: some tail of [s] is [p]. *)
Fixpoint endsWith (s p : string) : bool :=
  if String.eqb s p then true
  else match s with
       | EmptyString => false
       | String _ s' => endsWith s' p
       end.

(** ** Requests, responses, URLs *)

Record URL := mkURL { origin : string; pathname : string }.

Global Instance URL_eq_dec : EqDecision URL.
Proof. solve_decision. Defined.

Record Request := mkRequest {
  method : string;
  url : URL;
  mode : string;
  accept : option string;       (* request.headers.get('accept') *)
  destination : string;
  cache_mode : string           (* the RequestInit member "cache" *)
}.

Record Response := mkResponse {
  status : Z;
  headers : list (string * string);
  body : string
}.

Global Instance Response_eq_dec : EqDecision Response.
Proof. solve_decision. Defined.

(** [response.ok]: the status is in the range 200-299. *)
Definition ok (r : Response) : bool := (200 <=? status r) && (status r <=? 299).

(** [headers.get(name)] on the headers a response was built with. *)
Fixpoint header_get (hs : list (string * string)) (name : string) : option string :=
  match hs with
  | [] => None
  | (n, v) :: hs' => if String.eqb n name then Some v else header_get hs' name
  end.

(** The directory part of a path: everything up to and including the last
    slash. *)
Fixpoint dirname (s : string) : string :=
  match s with
  | EmptyString => EmptyString
  | String a s' =>
      if includes s' "/" then String a (dirname s')
      else if Ascii.eqb a "/"%char then "/" else EmptyString
  end.

(** Resolution of the relative paths the worker writes (["./x"], ["/x"],
    ["x"]) against the worker script's own location. *)
Definition resolve (base : URL) (p : string) : URL :=
  if startsWith p "./" then
    mkURL (origin base) (dirname (pathname base) ++ String.substring 2 (String.length p - 2) p)
  else if startsWith p "/" then mkURL (origin base) p
  else mkURL (origin base) (dirname (pathname base) ++ p).

(** [new Request(p, { cache: c })] for a path [p]. *)
Definition new_Request (base : URL) (p : string) (c : string) : Request :=
  mkRequest "GET" (resolve base p) "cors" None "" c.

(** [new Request(req, { cache: c })] for a request [req]: the copy differs
    from [req] in its cache mode. *)
Definition with_cache (req : Request) (c : string) : Request :=
  mkRequest (method req) (url req) (mode req) (accept req) (destination req) c.

(** ** One cache partition

    A partition is the list of its entries in insertion order; the key of an
    entry is the URL of the (GET) request it was stored under.  Request
    headers are no part of the key: responses that vary on a request header
    (a Vary header naming it) are stored and matched as the others are. *)

Abbreviation Cache := (list (URL * Response)).

(** [cache.match(k)]: the first entry stored under [k]. *)
Fixpoint entries_match (c : Cache) (k : URL) : option Response :=
  match c with
  | [] => None
  | (k', r) :: c' => if decide (k' = k) then Some r else entries_match c' k
  end.

(** [cache.delete(k)]: every entry stored under [k] is removed. *)
Fixpoint entries_delete (c : Cache) (k : URL) : Cache :=
  match c with
  | [] => []
  | (k', r) :: c' =>
      if decide (k' = k) then entries_delete c' k else (k', r) :: entries_delete c' k
  end.

(** [cache.put(k, r)]: entries stored under [k] are removed and the new entry
    is appended, so it becomes the youngest one. *)
Definition entries_put (c : Cache) (k : URL) (r : Response) : Cache :=
  entries_delete c k ++ [(k, r)].

(** [cache.keys()]: the keys in insertion order. *)
Definition entries_keys (c : Cache) : list URL := map fst c.

(** ** The worker's state and its environment *)

Record Worker := mkWorker {
  caches : gmap string (list (URL * Response));
  skipWaitingCalled : bool;
  clientsClaimed : bool
}.

Definition set_caches (w : Worker) (m : gmap string (list (URL * Response))) : Worker :=
  mkWorker m (skipWaitingCalled w) (clientsClaimed w).

(** How a promise ends: fulfilled with a value, rejected, or never settled. *)
Inductive Outcome (A : Type) : Type :=
| Fulfilled (a : A)
| Rejected
| Pending.
Arguments Fulfilled {A} a.
Arguments Rejected {A}.
Arguments Pending {A}.

Record Env := mkEnv {
  location : URL;                                   (* self.location *)
  network : Request -> Outcome Response;            (* fetch(request) *)
  open_fails : string -> bool;                      (* caches.open(name) rejects *)
  match_fails : string -> URL -> bool;              (* cache.match(k) rejects *)
  put_faulty : string -> URL -> Response -> bool;   (* the storage fails cache.put(k, r) *)
  keys_fails : string -> bool;                      (* cache.keys() rejects *)
  delete_fails : string -> URL -> bool;             (* cache.delete(k) rejects *)
  storage_keys_fails : bool;                        (* caches.keys() rejects *)
  storage_delete_fails : string -> bool             (* caches.delete(name) rejects *)
}.

(** Header names are compared without regard to case. *)
Definition lower (c : ascii) : ascii :=
  let n := nat_of_ascii c in
  if ((65 <=? n) && (n <=? 90))%nat then ascii_of_nat (n + 32) else c.

Fixpoint toLowerCase (s : string) : string :=
  match s with
  | EmptyString => EmptyString
  | String c s' => String (lower c) (toLowerCase s')
  end.

(** The values of a comma-separated header field, blanks dropped; [cur] is
    the value being read. *)
Fixpoint field_values (s cur : string) : list string :=
  match s with
  | EmptyString => [cur]
  | String c s' =>
      if Ascii.eqb c ","%char then cur :: field_values s' ""
      else if Ascii.eqb c " "%char || Ascii.eqb c "009"%char then field_values s' cur
      else field_values s' (cur ++ String c "")
  end.

(** Responses that [cache.put] refuses by itself, with a TypeError: a
    partial response (status 206) and a response with a Vary header one of
    whose values is the star. *)
Definition unstorable (r : Response) : bool :=
  (status r =? 206)
  || existsb (fun h => String.eqb (toLowerCase (fst h)) "vary"
                       && existsb (String.eqb "*") (field_values (snd h) ""))
             (headers r).

(** [cache.put(k, r)] is rejected: by its own refusal of the response, or
    because the storage fails the write. *)
Definition put_fails (e : Env) (c : string) (k : URL) (r : Response) : bool :=
  unstorable r || put_faulty e c k r.

Arguments put_fails : simpl never.

(** ** The promise monad *)

Definition Task (A : Type) : Type := Env -> Worker -> Outcome A * Worker.

Definition ret {A} (a : A) : Task A := fun _ w => (Fulfilled a, w).

(** [const x = await m; k x] *)
Definition bind {A B} (m : Task A) (k : A -> Task B) : Task B :=
  fun e w =>
    match m e w with
    | (Fulfilled a, w') => k a e w'
    | (Rejected, w') => (Rejected, w')
    | (Pending, w') => (Pending, w')
    end.

Notation "x <~ m ;; k" := (bind m (fun x => k))
  (at level 100, m at next level, right associativity).

(** [try { m } catch { h }] *)
Definition try_catch {A} (m h : Task A) : Task A :=
  fun e w =>
    match m e w with
    | (Rejected, w') => h e w'
    | r => r
    end.

(** [m.catch(() => {})] that nobody awaits: the caller goes on at once and
    never sees how [m] ends; what [m] wrote before it ended is in the store. *)
Definition detach {A} (m : Task A) : Task unit :=
  fun e w => (Fulfilled tt, snd (m e w)).

(** [const p = (async () => { m })()]: the task is started and the promise
    stands for its eventual outcome. *)
Definition start {A} (m : Task A) : Task (Outcome A) :=
  fun e w => let '(o, w') := m e w in (Fulfilled o, w').

(** [await p] *)
Definition await {A} (p : Outcome A) : Task A := fun _ w => (p, w).

(** The tasks of [list.map(async ...)] all run; their outcomes are collected. *)
Fixpoint run_all {A} (ts : list (Task A)) (e : Env) (w : Worker)
  : list (Outcome A) * Worker :=
  match ts with
  | [] => ([], w)
  | t :: ts' =>
      let '(o, w1) := t e w in
      let '(os, w2) := run_all ts' e w1 in
      (o :: os, w2)
  end.

Definition is_pending {A} (o : Outcome A) : bool :=
  match o with Pending => true | _ => false end.

Definition is_rejected {A} (o : Outcome A) : bool :=
  match o with Rejected => true | _ => false end.

(** [Promise.allSettled(ts)]: fulfilled once every task has settled, however
    each of them ended. *)
Definition allSettled {A} (ts : list (Task A)) : Task (list (Outcome A)) :=
  fun e w =>
    let '(os, w') := run_all ts e w in
    (if existsb is_pending os then Pending else Fulfilled os, w').

(** [Promise.all(ts)]: rejected as soon as one task is rejected, fulfilled
    when all are. *)
Definition all {A} (ts : list (Task A)) : Task unit :=
  fun e w =>
    let '(os, w') := run_all ts e w in
    (if existsb is_rejected os then Rejected
     else if existsb is_pending os then Pending
     else Fulfilled tt, w').

(** ** The Cache API *)

Definition self_location : Task URL := fun e w => (Fulfilled (location e), w).

(** [fetch(req)] *)
Definition fetch (req : Request) : Task Response := fun e w => (network e req, w).

Definition create_if_absent (w : Worker) (name : string) : Worker :=
  match caches w !! name with
  | Some _ => w
  | None => set_caches w (<[name := []]> (caches w))
  end.

(** [caches.open(name)]: the partition is created when absent; the result is
    a handle on it, here its name. *)
Definition caches_open (name : string) : Task string :=
  fun e w =>
    if open_fails e name then (Rejected, w)
    else (Fulfilled name, create_if_absent w name).

Definition partition (w : Worker) (name : string) : Cache :=
  default [] (caches w !! name).

(** [cache.match(k)] *)
Definition cache_match (c : string) (k : URL) : Task (option Response) :=
  fun e w =>
    if match_fails e c k then (Rejected, w)
    else (Fulfilled (entries_match (partition w c) k), w).

(** [cache.put(k, r)].  The write goes through the handle: if the partition
    is no longer in the storage, the storage does not show it. *)
Definition cache_put (c : string) (k : URL) (r : Response) : Task unit :=
  fun e w =>
    if put_fails e c k r then (Rejected, w)
    else (Fulfilled tt, set_caches w (alter (fun es => entries_put es k r) c (caches w))).

(** [cache.keys()] *)
Definition cache_keys (c : string) : Task (list URL) :=
  fun e w =>
    if keys_fails e c then (Rejected, w)
    else (Fulfilled (entries_keys (partition w c)), w).

(** [cache.delete(k)] *)
Definition cache_delete (c : string) (k : URL) : Task unit :=
  fun e w =>
    if delete_fails e c k then (Rejected, w)
    else (Fulfilled tt, set_caches w (alter (fun es => entries_delete es k) c (caches w))).

(** [caches.keys()] *)
Definition caches_keys : Task (list string) :=
  fun e w =>
    if storage_keys_fails e then (Rejected, w)
    else (Fulfilled (map fst (map_to_list (caches w))), w).

(** [caches.delete(name)] *)
Definition caches_delete (name : string) : Task unit :=
  fun e w =>
    if storage_delete_fails e name then (Rejected, w)
    else (Fulfilled tt, set_caches w (delete name (caches w))).

(** [self.skipWaiting()] *)
Definition skipWaiting : Task unit :=
  fun _ w => (Fulfilled tt, mkWorker (caches w) true (clientsClaimed w)).

(** [self.clients.claim()] *)
Definition clients_claim : Task unit :=
  fun _ w => (Fulfilled tt, mkWorker (caches w) (skipWaitingCalled w) true).

(** ** sw.js: configuration *)

Definition APP_VERSION : string := "2025-12-18_03".
Definition CACHE_PREFIX : string := "svetla".
Definition CACHE_HTML : string := CACHE_PREFIX ++ "-html-" ++ APP_VERSION.
Definition CACHE_ASSETS : string := CACHE_PREFIX ++ "-assets-" ++ APP_VERSION.

Definition CORE_ASSETS : list string :=
  [ "./"; "./index.html"; "./manifest.json"; "./sw.js";
    "./icons/icon-192.png"; "./icons/icon-512.png" ].

Definition MAX_ASSET_ENTRIES : Z := 120.

Arguments CACHE_HTML : simpl never.
Arguments CACHE_ASSETS : simpl never.
Arguments resolve : simpl never.

(** ** sw.js: helpers *)

Definition isSameOrigin (e : Env) (u : URL) : bool :=
  String.eqb (origin u) (origin (location e)).

Definition isHTMLRequest (request : Request) : bool :=
  String.eqb (mode request) "navigate"
  || includes (default "" (accept request)) "text/html".

Definition isAssetRequest (request : Request) : bool :=
  let dest := destination request in
  String.eqb dest "script" || String.eqb dest "style" || String.eqb dest "image"
  || String.eqb dest "font" || String.eqb dest "audio" || String.eqb dest "video".

(** The body of the [for] loop of [trimCache], run [n] more times from index
    [i].  Past the end of [keys], [keys[i]] is [undefined], which
    [cache.delete] reads as the relative URL "undefined". *)
Fixpoint trim_loop (cache : string) (keys : list URL) (i n : nat) : Task unit :=
  match n with
  | O => ret tt
  | S n' =>
      _ <~ match keys !! i with
           | Some k => cache_delete cache k
           | None => base <~ self_location ;; cache_delete cache (resolve base "undefined")
           end ;;
      trim_loop cache keys (S i) n'
  end.

Definition trimCache (cacheName : string) (maxEntries : Z) : Task unit :=
  cache <~ caches_open cacheName ;;
  keys <~ cache_keys cache ;;
  if Z.of_nat (length keys) <=? maxEntries then ret tt
  else
    let deleteCount := Z.of_nat (length keys) - maxEntries in
    trim_loop cache keys 0 (Z.to_nat deleteCount).

(** ** sw.js: install *)

Definition htmlList : list string :=
  List.filter (fun p => endsWith p "/" || endsWith p ".html") CORE_ASSETS.

Definition assetList : list string :=
  List.filter (fun p => negb (existsb (String.eqb p) htmlList)) CORE_ASSETS.

(** One element of [list.map(async (p) => ...)] in the install listener. *)
Definition precache (cache : string) (p : string) : Task unit :=
  base <~ self_location ;;
  let req := new_Request base p "reload" in
  res <~ fetch req ;;
  if ok res then cache_put cache (url req) res else ret tt.

(** The partition a manifest path is precached into, and what one precache
    task leaves in the entries of its partition. *)
Definition precache_partition (p : string) : string :=
  if existsb (String.eqb p) htmlList then CACHE_HTML else CACHE_ASSETS.

Definition precached (e : Env) (cache : string) (es : Cache) (p : string) : Cache :=
  let req := new_Request (location e) p "reload" in
  match network e req with
  | Fulfilled res =>
      if ok res && negb (put_fails e cache (url req) res)
      then entries_put es (url req) res
      else es
  | _ => es
  end.

Definition install : Task unit :=
  htmlCache <~ caches_open CACHE_HTML ;;
  assetsCache <~ caches_open CACHE_ASSETS ;;
  _ <~ allSettled (map (precache htmlCache) htmlList) ;;
  _ <~ allSettled (map (precache assetsCache) assetList) ;;
  skipWaiting.

(** ** sw.js: activate *)

Definition allowed : gset string := {[ CACHE_HTML; CACHE_ASSETS ]}.

(** The test of the activate listener: [k] carries the prefix and is not
    one of the two current names. *)
Definition obsolete (k : string) : bool :=
  startsWith k CACHE_PREFIX && negb (bool_decide (k ∈ allowed)).

Definition cleanup (k : string) : Task unit :=
  if obsolete k then caches_delete k else ret tt.

Definition activate : Task unit :=
  keys <~ caches_keys ;;
  _ <~ all (map cleanup keys) ;;
  clients_claim.

(** ** sw.js: fetch *)

Definition offline_response : Response :=
  mkResponse 503 [("Content-Type", "text/plain; charset=utf-8")] "Offline".

(** [new Response('', { status: 504 })]: a string body brings its content
    type with it. *)
Definition timeout_response : Response :=
  mkResponse 504 [("content-type", "text/plain;charset=UTF-8")] "".

(** 1) HTML: network-first *)
Definition respond_html (req : Request) : Task Response :=
  htmlCache <~ caches_open CACHE_HTML ;;
  try_catch
    (fresh <~ fetch (with_cache req "no-store") ;;
     _ <~ (if ok fresh then detach (cache_put htmlCache (url req) fresh) else ret tt) ;;
     ret fresh)
    (cached <~ cache_match htmlCache (url req) ;;
     match cached with
     | Some c => ret c
     | None =>
         base <~ self_location ;;
         fallback <~ cache_match htmlCache (resolve base "./index.html") ;;
         match fallback with
         | Some f => ret f
         | None => ret offline_response
         end
     end).

(** The body of the async function behind [fetchPromise]; [None] is its
    [null].  The put and the trimming are both started without being
    awaited; here the put has landed when the trimming reads the keys.  The
    answer does not depend on that order; what the order changes in the store
    is treated with the two tasks composed explicitly. *)
Definition revalidate (cache : string) (req : Request) : Task (option Response) :=
  try_catch
    (fresh <~ fetch req ;;
     _ <~ (if ok fresh then
             _ <~ detach (cache_put cache (url req) fresh) ;;
             detach (trimCache CACHE_ASSETS MAX_ASSET_ENTRIES)
           else ret tt) ;;
     ret (Some fresh))
    (ret None).

(** 2) assets: stale-while-revalidate *)
Definition respond_asset (req : Request) : Task Response :=
  cache <~ caches_open CACHE_ASSETS ;;
  cached <~ cache_match cache (url req) ;;
  fetchPromise <~ start (revalidate cache req) ;;
  match cached with
  | Some c => ret c
  | None =>
      fresh <~ await fetchPromise ;;
      match fresh with
      | Some f => ret f
      | None => ret timeout_response
      end
  end.

(** 3) everything else: network-first with cache fallback *)
Definition respond_other (req : Request) : Task Response :=
  cache <~ caches_open CACHE_ASSETS ;;
  try_catch
    (fresh <~ fetch req ;;
     _ <~ (if ok fresh then detach (cache_put cache (url req) fresh) else ret tt) ;;
     ret fresh)
    (cached <~ cache_match cache (url req) ;;
     match cached with
     | Some c => ret c
     | None => ret timeout_response
     end).

(** The fetch listener: [None] when it returns without [respondWith], so
    that the browser handles the request itself. *)
Definition on_fetch (e : Env) (req : Request) : option (Task Response) :=
  if negb (String.eqb (method req) "GET") then None
  else if negb (isSameOrigin e (url req)) then None
  else if isHTMLRequest req then Some (respond_html req)
  else if isAssetRequest req then Some (respond_asset req)
  else Some (respond_other req).

(** The three-way split the fetch listener makes by its order of tests. *)
Inductive Category := Document | Asset | Other.

Definition classify (req : Request) : Category :=
  if isHTMLRequest req then Document
  else if isAssetRequest req then Asset
  else Other.

Definition strategy (c : Category) : Request -> Task Response :=
  match c with
  | Document => respond_html
  | Asset => respond_asset
  | Other => respond_other
  end.

(** The partition a category reads and writes, and the request it sends to
    the network, as the three branches have them. *)
Definition partition_of (c : Category) : string :=
  match c with
  | Document => CACHE_HTML
  | Asset | Other => CACHE_ASSETS
  end.

Definition sent_request (c : Category) (req : Request) : Request :=
  match c with
  | Document => with_cache req "no-store"
  | Asset | Other => req
  end.

(** The destinations [isAssetRequest] tests for. *)
Definition asset_destinations : list string :=
  [ "script"; "style"; "image"; "font"; "audio"; "video" ].

(** ** sw.js: the write and the trimming of the asset branch, interleaved

    In the asset branch [cache.put(...)] and [trimCache(...)] are started one
    after the other and neither is awaited, so the write lands at some point
    of the trimming: before the trimming has read the keys, which is what
    [revalidate] does, or once it has read them and made [j] of its
    deletions. *)

Inductive Landing := BeforeKeys | AfterDeletions (j : nat).

(** [trimCache] up to its [j]-th deletion (up to the last one when it makes
    fewer).  The result is what the rest of the loop needs: the handle, the
    keys that were read, the index to go on from and the number of deletions
    left. *)
Definition trimCache_upto (j : nat) (cacheName : string) (maxEntries : Z)
  : Task (string * list URL * nat * nat) :=
  cache <~ caches_open cacheName ;;
  keys <~ cache_keys cache ;;
  let deleteCount :=
    if Z.of_nat (length keys) <=? maxEntries then 0%nat
    else Z.to_nat (Z.of_nat (length keys) - maxEntries) in
  _ <~ trim_loop cache keys 0 (Nat.min j deleteCount) ;;
  ret (cache, keys, Nat.min j deleteCount, (deleteCount - Nat.min j deleteCount)%nat).

(** [trimCache] with the task [write] landing after its [j]-th deletion.
    The write does not depend on the trimming: it lands also when the
    trimming has been rejected before. *)
Definition trimCache_racing (write : Task unit) (j : nat)
    (cacheName : string) (maxEntries : Z) : Task unit :=
  fun e w =>
    match trimCache_upto j cacheName maxEntries e w with
    | (Fulfilled (cache, keys, i, n), w1) => trim_loop cache keys i n e (snd (write e w1))
    | (Rejected, w1) => (Rejected, snd (write e w1))
    | (Pending, w1) => (Pending, snd (write e w1))
    end.

(** [cache.put(req, fresh.clone()).catch(()=>{});
     trimCache(CACHE_ASSETS, MAX_ASSET_ENTRIES).catch(()=>{});] *)
Definition store_and_trim (s : Landing) (cache : string) (k : URL) (r : Response)
  : Task unit :=
  match s with
  | BeforeKeys =>
      _ <~ detach (cache_put cache k r) ;;
      detach (trimCache CACHE_ASSETS MAX_ASSET_ENTRIES)
  | AfterDeletions j =>
      detach (trimCache_racing (cache_put cache k r) j CACHE_ASSETS MAX_ASSET_ENTRIES)
  end.

(** [revalidate] and the asset strategy, with the landing point of the write
    as a parameter. *)
Definition revalidate_at (s : Landing) (cache : string) (req : Request)
  : Task (option Response) :=
  try_catch
    (fresh <~ fetch req ;;
     _ <~ (if ok fresh then store_and_trim s cache (url req) fresh else ret tt) ;;
     ret (Some fresh))
    (ret None).

Definition respond_asset_at (s : Landing) (req : Request) : Task Response :=
  cache <~ caches_open CACHE_ASSETS ;;
  cached <~ cache_match cache (url req) ;;
  fetchPromise <~ start (revalidate_at s cache req) ;;
  match cached with
  | Some c => ret c
  | None =>
      fresh <~ await fetchPromise ;;
      match fresh with
      | Some f => ret f
      | None => ret timeout_response
      end
  end.

(** ** sw.js: message *)

Definition on_message (data : option string) : Task unit :=
  match data with
  | None => ret tt
  | Some d => if String.eqb d "SKIP_WAITING" then skipWaiting else ret tt
  end.

(** ** The repository's second worker (cache "barvy-v7")

    A stand-alone worker with a single partition: it precaches with one
    [cache.addAll] and on activation keeps only its own partition. *)

Module Barvy.

Definition CACHE : string := "barvy-v7".

Definition PRECACHE : list string :=
  [ "./"; "./index.html"; "./manifest.json"; "./video.mp4";
    "./icon-192.png"; "./icon-512.png" ].

(** A response [addAll] refuses: the fetch was rejected or is not [ok]. *)
Definition refused (o : Outcome Response) : bool :=
  match o with
  | Rejected => true
  | Fulfilled r => negb (ok r)
  | Pending => false
  end.

Definition put_fetched (es : Cache) (qo : Request * Outcome Response) : Cache :=
  match snd qo with
  | Fulfilled r => entries_put es (url (fst qo)) r
  | _ => es
  end.

(** [cache.addAll(paths)]: every path is fetched; unless all responses are
    [ok] the promise is rejected and nothing is stored, otherwise all are
    stored together. *)
Definition cache_addAll (c : string) (paths : list string) : Task unit :=
  fun e w =>
    let reqs := map (fun p => new_Request (location e) p "default") paths in
    let outs := map (network e) reqs in
    if existsb refused outs then (Rejected, w)
    else if existsb is_pending outs then (Pending, w)
    else if existsb (fun qo => match snd qo with
                               | Fulfilled r => put_fails e c (url (fst qo)) r
                               | _ => false
                               end) (combine reqs outs)
         then (Rejected, w)
    else (Fulfilled tt,
          set_caches w (alter (fun es => fold_left put_fetched (combine reqs outs) es)
                              c (caches w))).

(** [self.skipWaiting()] is called synchronously by the listener, before the
    promise handed to [waitUntil] makes progress. *)
Definition install : Task unit :=
  _ <~ skipWaiting ;;
  c <~ caches_open CACHE ;;
  cache_addAll c PRECACHE.

Definition activate : Task unit :=
  keys <~ caches_keys ;;
  _ <~ all (map caches_delete (List.filter (fun k => negb (String.eqb k CACHE)) keys)) ;;
  clients_claim.

End Barvy.

(** ** A sample deployment, for running the listeners *)

Definition sw_location : URL := mkURL "https://berniocal.github.io" "/svetla/sw.js".

Definition page (p : string) : URL := mkURL "https://berniocal.github.io" ("/svetla/" ++ p).

(** An environment whose storage never fails and whose network answers
    every request the same way. *)
Definition sample_env (net : Outcome Response) : Env :=
  mkEnv sw_location (fun _ => net)
        (fun _ => false) (fun _ _ => false) (fun _ _ _ => false)
        (fun _ => false) (fun _ _ => false) false (fun _ => false).

(** The same, with a storage that rejects [caches.open]. *)
Definition broken_storage_env (net : Outcome Response) : Env :=
  mkEnv sw_location (fun _ => net)
        (fun _ => true) (fun _ _ => false) (fun _ _ _ => false)
        (fun _ => false) (fun _ _ => false) false (fun _ => false).

(** An environment that differs from [e] at most in which writes, key
    listings and deletions are rejected. *)
Definition with_write_faults (e : Env)
    (pf : string -> URL -> Response -> bool) (kf : string -> bool)
    (df : string -> URL -> bool) : Env :=
  mkEnv (location e) (network e) (open_fails e) (match_fails e) pf kf df
        (storage_keys_fails e) (storage_delete_fails e).

(** An environment whose network answers only the requests for .html
    paths and rejects the others. *)
Definition flaky_env : Env :=
  mkEnv sw_location
        (fun q => if endsWith (pathname (url q)) ".html"
                  then Fulfilled (mkResponse 200 [] "home")
                  else Rejected)
        (fun _ => false) (fun _ _ => false) (fun _ _ _ => false)
        (fun _ => false) (fun _ _ => false) false (fun _ => false).

Definition sample_response (st : Z) (b : string) : Response :=
  mkResponse st [("Content-Type", "text/html")] b.

Definition sample_worker (m : gmap string (list (URL * Response))) : Worker :=
  mkWorker m false false.

Definition navigation (p : string) : Request :=
  mkRequest "GET" (page p) "navigate" (Some "text/html,application/xhtml+xml")
            "document" "default".

Definition subresource (p dest : string) : Request :=
  mkRequest "GET" (page p) "no-cors" (Some "*/*") dest "default".

(** An image request that also announces HTML in its accept header. *)
Definition overlapping_request : Request :=
  mkRequest "GET" (page "logo.png") "no-cors" (Some "text/html,image/png")
            "image" "default".

(** A store holding the two current partitions, a document partition of an
    earlier version, the partition of the second worker and a partition of
    another application. *)
Definition store_with_old_generation : gmap string (list (URL * Response)) :=
  <[ "svetla-html-2025-11-02_01" := [(page "index.html", sample_response 200 "old")] ]>
  (<[ "barvy-v7" := [(page "barvy.html", sample_response 200 "barvy")] ]>
  (<[ "notes-v1" := [(page "notes.html", sample_response 200 "notes")] ]>
  (<[ CACHE_HTML := [(page "index.html", sample_response 200 "home")] ]>
  (<[ CACHE_ASSETS := [] ]> ∅)))).

Definition three_entries : Cache :=
  [ (page "a.css", sample_response 200 "a");
    (page "b.js", sample_response 200 "b");
    (page "c.png", sample_response 200 "c") ].

(** [n] entries under the keys asset-0.css, asset-1.css, ..., the oldest
    first. *)
Definition numbered_entries (n : nat) : Cache :=
  map (fun i : nat => (page ("asset-" ++ pretty i ++ ".css"), sample_response 200 ""))
      (seq 0 n).

(** ** Properties kept by tasks *)

(** A task keeps a property of the worker, however the task ends and
    whatever the environment does. *)
Definition keeps (P : Worker → Prop) {A} (t : Task A) : Prop :=
  ∀ e w, P w → P (snd (t e w)).

(** ** Further sample environments *)

(** A storage that rejects [cache.delete] for the key [u] only. *)
Definition delete_rejecting_env (u : URL) : Env :=
  mkEnv sw_location (fun _ => Rejected)
        (fun _ => false) (fun _ _ => false) (fun _ _ _ => false)
        (fun _ => false) (fun _ k => bool_decide (k = u)) false (fun _ => false).

(** A storage that rejects [caches.delete] for the partition [name] only. *)
Definition partition_delete_rejecting_env (name : string) : Env :=
  mkEnv sw_location (fun _ => Rejected)
        (fun _ => false) (fun _ _ => false) (fun _ _ _ => false)
        (fun _ => false) (fun _ _ => false) false (fun k => String.eqb k name).

(** A network on which the fetch of ./index.html never settles. *)
Definition stalled_env : Env :=
  mkEnv sw_location
        (fun q => if endsWith (pathname (url q)) ".html"
                  then Pending
                  else Fulfilled (mkResponse 200 [] "asset"))
        (fun _ => false) (fun _ _ => false) (fun _ _ _ => false)
        (fun _ => false) (fun _ _ => false) false (fun _ => false).

(** Properties relative to a starting state [w0]: the partition [n] is as
    in [w0]; the lookup of [k] in the partition [c] gives what it gave in
    [w0]. *)
Definition untouched (w0 : Worker) (n : string) (w : Worker) : Prop :=
  caches w !! n = caches w0 !! n.

Definition same_entry (w0 : Worker) (c : string) (k : URL) (w : Worker) : Prop :=
  entries_match (partition w c) k = entries_match (partition w0 c) k.

(** * Properties *)

(** ** Entries of one partition *)

Lemma entries_match_app (c1 c2 : Cache) k :
  entries_match (c1 ++ c2) k =
  match entries_match c1 k with
  | Some r => Some r
  | None => entries_match c2 k
  end.
Proof.
  induction c1 as [|[k' r] c1 IH]; simpl; [done|].
  destruct (decide (k' = k)); [done|apply IH].
Qed.

Lemma entries_match_delete (c : Cache) k k' :
  entries_match (entries_delete c k) k' =
  if decide (k = k') then None else entries_match c k'.
Proof.
  induction c as [|[k0 r] c IH]; simpl.
  - by destruct (decide (k = k')).
  - destruct (decide (k0 = k)) as [->|Hne]; simpl.
    + rewrite IH. destruct (decide (k = k')); [done|].
      by destruct (decide (k = k')).
    + rewrite IH. destruct (decide (k0 = k')) as [->|]; [|done].
      by destruct (decide (k = k')); [congruence|].
Qed.

Lemma entries_match_put (c : Cache) k r k' :
  entries_match (entries_put c k r) k' =
  if decide (k = k') then Some r else entries_match c k'.
Proof.
  unfold entries_put. rewrite entries_match_app, entries_match_delete. simpl.
  destruct (decide (k = k')); [done|].
  by destruct (entries_match c k').
Qed.

Lemma entries_delete_absent (c : Cache) k :
  k ∉ entries_keys c → entries_delete c k = c.
Proof.
  induction c as [|[k' r] c IH]; simpl; [done|].
  intros Hk. apply not_elem_of_cons in Hk as [Hne Hk].
  destruct (decide (k' = k)); [congruence|]. by rewrite IH.
Qed.

Lemma entries_keys_delete (c : Cache) k k' :
  k' ∈ entries_keys (entries_delete c k) ↔ k' ≠ k ∧ k' ∈ entries_keys c.
Proof.
  induction c as [|[k0 r] c IH]; simpl.
  - split; [by intros ?%elem_of_nil|by intros [_ ?%elem_of_nil]].
  - destruct (decide (k0 = k)) as [->|Hne]; simpl.
    + rewrite IH, elem_of_cons. intuition congruence.
    + rewrite !elem_of_cons, IH. intuition congruence.
Qed.

Lemma entries_delete_NoDup (c : Cache) k :
  NoDup (entries_keys c) → NoDup (entries_keys (entries_delete c k)).
Proof.
  induction c as [|[k0 r] c IH]; simpl; [done|].
  intros [Hk0 Hc]%NoDup_cons.
  destruct (decide (k0 = k)); [by apply IH|].
  simpl. apply NoDup_cons. split; [|by apply IH].
  rewrite entries_keys_delete. tauto.
Qed.

(** [put] keeps the keys of a partition distinct: a key is stored once. *)
Lemma entries_put_NoDup (c : Cache) k r :
  NoDup (entries_keys c) → NoDup (entries_keys (entries_put c k r)).
Proof.
  intros Hc. unfold entries_put, entries_keys. rewrite map_app. simpl.
  apply NoDup_app. split; [by apply entries_delete_NoDup|].
  split; [|apply NoDup_singleton].
  intros k' Hk' ->%list_elem_of_singleton.
  apply entries_keys_delete in Hk'. tauto.
Qed.

(** Deleting the key at the head of what is left removes exactly that entry. *)
Lemma entries_delete_drop (c : Cache) i k :
  NoDup (entries_keys c) →
  entries_keys c !! i = Some k →
  entries_delete (drop i c) k = drop (S i) c.
Proof.
  revert i. induction c as [|[k0 r] c IH]; intros i Hnd Hi; [done|].
  apply NoDup_cons in Hnd as [Hk0 Hc].
  destruct i as [|i]; simpl in *.
  - injection Hi as ->. destruct (decide (k = k)); [|done].
    rewrite drop_0. by apply entries_delete_absent.
  - by apply IH.
Qed.

(** ** Bookkeeping on the worker state *)

Lemma set_caches_set w m1 m2 : set_caches (set_caches w m1) m2 = set_caches w m2.
Proof. done. Qed.

Lemma set_caches_id w : set_caches w (caches w) = w.
Proof. by destruct w. Qed.

Lemma partition_set w m name :
  partition (set_caches w m) name = default [] (m !! name).
Proof. done. Qed.

(** ** trimCache *)

Lemma entries_keys_length (c : Cache) : length (entries_keys c) = length c.
Proof. unfold entries_keys. apply length_map. Qed.

Lemma trim_loop_spec e w (m : gmap string (list (URL * Response))) name (c : Cache) n i :
  (∀ u, delete_fails e name u = false) →
  NoDup (entries_keys c) →
  (i + n ≤ length c)%nat →
  trim_loop name (entries_keys c) i n e (set_caches w (<[name := drop i c]> m))
  = (Fulfilled tt, set_caches w (<[name := drop (i + n) c]> m)).
Proof.
  intros Hdel Hnd. revert i.
  induction n as [|n IH]; intros i Hlen; simpl.
  - by rewrite Nat.add_0_r.
  - destruct (lookup_lt_is_Some_2 (entries_keys c) i) as [k Hk].
    { rewrite entries_keys_length. lia. }
    unfold bind at 1. rewrite Hk. unfold cache_delete. rewrite Hdel. simpl.
    rewrite alter_insert_eq, (entries_delete_drop c i k Hnd Hk).
    rewrite set_caches_set, IH by lia.
    by replace (S i + n)%nat with (i + S n)%nat by lia.
Qed.

(** C8. [trimCache] leaves a partition with at most [maxEntries] entries as
    it is; on a partition of [N + k] entries with [maxEntries = N] and
    [k > 0] it leaves exactly [N] entries, having removed the first [k] in
    insertion order, the oldest ones, and touches no other partition. *)
Theorem trimCache_spec e w name (c : Cache) :
  open_fails e name = false →
  keys_fails e name = false →
  (∀ u, delete_fails e name u = false) →
  caches w !! name = Some c →
  NoDup (entries_keys c) →
  (∀ maxEntries : Z,
      Z.of_nat (length c) <= maxEntries →
      trimCache name maxEntries e w = (Fulfilled tt, w))
  ∧ (∀ N k : nat,
      length c = (N + k)%nat → (0 < k)%nat →
      ∃ w', trimCache name (Z.of_nat N) e w = (Fulfilled tt, w')
            ∧ partition w' name = drop k c
            ∧ length (partition w' name) = N
            ∧ c = (take k c ++ partition w' name)%list
            ∧ (∀ n, n ≠ name → caches w' !! n = caches w !! n)).
Proof.
  intros Hopen Hkeys Hdel Hc Hnd.
  assert (Hrun : ∀ maxEntries,
    trimCache name maxEntries e w =
    if Z.of_nat (length c) <=? maxEntries then (Fulfilled tt, w)
    else trim_loop name (entries_keys c) 0
           (Z.to_nat (Z.of_nat (length c) - maxEntries)) e w).
  { intros maxEntries. unfold trimCache, bind, caches_open, cache_keys, create_if_absent, partition.
    rewrite Hopen, Hc, Hkeys. simpl. rewrite Hc. simpl.
    rewrite !entries_keys_length.
    by destruct (Z.of_nat (length c) <=? maxEntries). }
  split.
  - intros maxEntries Hle. rewrite Hrun.
    by destruct (Z.leb_spec (Z.of_nat (length c)) maxEntries); [|lia].
  - intros N k Hlen Hk.
    exists (set_caches w (<[name := drop k c]> (caches w))).
    split; [|split; [|split; [|split]]].
    + rewrite Hrun.
      destruct (Z.leb_spec (Z.of_nat (length c)) (Z.of_nat N)); [lia|].
      replace (Z.to_nat (Z.of_nat (length c) - Z.of_nat N)) with k by lia.
      pose proof (trim_loop_spec e w (caches w) name c k 0 Hdel Hnd) as Hloop.
      rewrite drop_0, (insert_id _ _ _ Hc), set_caches_id in Hloop.
      apply Hloop. lia.
    + by rewrite partition_set, lookup_insert_eq.
    + rewrite partition_set, lookup_insert_eq. simpl. rewrite length_drop. lia.
    + rewrite partition_set, lookup_insert_eq. simpl. by rewrite take_drop.
    + intros n Hn. simpl. by rewrite lookup_insert_ne.
Qed.

Lemma trimCache_spec_witness :
  let e := sample_env Rejected in
  let w := sample_worker {[ CACHE_ASSETS := three_entries ]} in
  (∀ maxEntries : Z,
      Z.of_nat (length three_entries) <= maxEntries →
      trimCache CACHE_ASSETS maxEntries e w = (Fulfilled tt, w))
  ∧ (∀ N k : nat,
      length three_entries = (N + k)%nat → (0 < k)%nat →
      ∃ w', trimCache CACHE_ASSETS (Z.of_nat N) e w = (Fulfilled tt, w')
            ∧ partition w' CACHE_ASSETS = drop k three_entries
            ∧ length (partition w' CACHE_ASSETS) = N
            ∧ three_entries = (take k three_entries ++ partition w' CACHE_ASSETS)%list
            ∧ (∀ n, n ≠ CACHE_ASSETS → caches w' !! n = caches w !! n)).
Proof.
  apply (trimCache_spec (sample_env Rejected)
           (sample_worker {[ CACHE_ASSETS := three_entries ]})
           CACHE_ASSETS three_entries).
  - reflexivity.
  - reflexivity.
  - reflexivity.
  - vm_compute. reflexivity.
  - apply (bool_decide_unpack _). vm_compute. reflexivity.
Defined.

(** ** Opening and writing partitions *)

Lemma partition_create_if_absent w n n' :
  partition (create_if_absent w n) n' = partition w n'.
Proof.
  unfold create_if_absent, partition.
  destruct (caches w !! n) eqn:Hn; [done|]. simpl.
  destruct (decide (n = n')) as [<-|Hne].
  - by rewrite lookup_insert_eq, Hn.
  - by rewrite lookup_insert_ne.
Qed.

Lemma create_if_absent_present w n : is_Some (caches (create_if_absent w n) !! n).
Proof.
  unfold create_if_absent. destruct (caches w !! n) eqn:Hn; [by rewrite Hn|].
  simpl. rewrite lookup_insert_eq. by eexists.
Qed.

Lemma create_if_absent_keeps w n n' :
  is_Some (caches w !! n') → is_Some (caches (create_if_absent w n) !! n').
Proof.
  unfold create_if_absent. destruct (caches w !! n) eqn:Hn; [done|].
  simpl. intros H. rewrite lookup_insert_is_Some. destruct (decide (n = n')); auto.
Qed.

Lemma create_if_absent_idemp w name :
  is_Some (caches w !! name) → create_if_absent w name = w.
Proof. intros [es Hes]. unfold create_if_absent. by rewrite Hes. Qed.

Lemma partition_alter w f c n :
  is_Some (caches w !! c) →
  partition (set_caches w (alter f c (caches w))) n =
  if decide (c = n) then f (partition w c) else partition w n.
Proof.
  intros [es Hes]. unfold partition. simpl.
  destruct (decide (c = n)) as [<-|Hne].
  - by rewrite lookup_alter_eq, Hes.
  - by rewrite lookup_alter_ne.
Qed.

Lemma alter_keeps (m : gmap string (list (URL * Response))) f c n :
  is_Some (alter f c m !! n) ↔ is_Some (m !! n).
Proof.
  destruct (decide (c = n)) as [<-|Hne].
  - rewrite lookup_alter_eq. apply fmap_is_Some.
  - by rewrite lookup_alter_ne.
Qed.

(** ** What each strategy answers

    The answer of a strategy is determined by the worker's location, the
    network, whether [caches.open] and [cache.match] are rejected, and the
    entries found: rejected writes and trims do not appear. *)

Lemma respond_html_outcome e w req :
  fst (respond_html req e w) =
  if open_fails e CACHE_HTML then Rejected
  else match network e (with_cache req "no-store") with
       | Fulfilled fresh => Fulfilled fresh
       | Pending => Pending
       | Rejected =>
           if match_fails e CACHE_HTML (url req) then Rejected
           else match entries_match (partition w CACHE_HTML) (url req) with
                | Some c => Fulfilled c
                | None =>
                    if match_fails e CACHE_HTML (resolve (location e) "./index.html")
                    then Rejected
                    else match entries_match (partition w CACHE_HTML)
                                 (resolve (location e) "./index.html") with
                         | Some f => Fulfilled f
                         | None => Fulfilled offline_response
                         end
                end
       end.
Proof.
  unfold respond_html, bind, try_catch, caches_open, fetch, detach, ret,
    cache_match, self_location.
  destruct (open_fails e CACHE_HTML); [done|].
  destruct (network e (with_cache req "no-store")) as [fresh| |]; [|simpl|done].
  - by destruct (ok fresh).
  - rewrite !partition_create_if_absent.
    destruct (match_fails e CACHE_HTML (url req)); [done|]. simpl.
    destruct (entries_match (partition w CACHE_HTML) (url req)); [done|].
    destruct (match_fails e CACHE_HTML _); [done|]. simpl.
    rewrite partition_create_if_absent.
    by destruct (entries_match (partition w CACHE_HTML) _).
Qed.

Lemma revalidate_outcome cache req e w :
  fst (revalidate cache req e w) =
  match network e req with
  | Fulfilled fresh => Fulfilled (Some fresh)
  | Rejected => Fulfilled None
  | Pending => Pending
  end.
Proof.
  unfold revalidate, try_catch, bind at 1, fetch.
  destruct (network e req) as [fresh| |]; [|done|done].
  unfold bind, detach, ret. by destruct (ok fresh).
Qed.

Lemma respond_asset_outcome e w req :
  fst (respond_asset req e w) =
  if open_fails e CACHE_ASSETS then Rejected
  else if match_fails e CACHE_ASSETS (url req) then Rejected
  else match entries_match (partition w CACHE_ASSETS) (url req) with
       | Some c => Fulfilled c
       | None =>
           match network e req with
           | Fulfilled fresh => Fulfilled fresh
           | Rejected => Fulfilled timeout_response
           | Pending => Pending
           end
       end.
Proof.
  unfold respond_asset, bind, caches_open, cache_match, start, await, ret.
  destruct (open_fails e CACHE_ASSETS); [done|].
  destruct (match_fails e CACHE_ASSETS (url req)); [done|].
  rewrite partition_create_if_absent.
  pose proof (revalidate_outcome CACHE_ASSETS req e (create_if_absent w CACHE_ASSETS)) as Hrev.
  destruct (revalidate CACHE_ASSETS req e _) as [o w']. simpl in Hrev. subst o.
  destruct (entries_match (partition w CACHE_ASSETS) (url req)) as [c|]; [done|].
  by destruct (network e req).
Qed.

Lemma respond_other_outcome e w req :
  fst (respond_other req e w) =
  if open_fails e CACHE_ASSETS then Rejected
  else match network e req with
       | Fulfilled fresh => Fulfilled fresh
       | Pending => Pending
       | Rejected =>
           if match_fails e CACHE_ASSETS (url req) then Rejected
           else match entries_match (partition w CACHE_ASSETS) (url req) with
                | Some c => Fulfilled c
                | None => Fulfilled timeout_response
                end
       end.
Proof.
  unfold respond_other, bind, try_catch, caches_open, fetch, detach, ret, cache_match.
  destruct (open_fails e CACHE_ASSETS); [done|].
  destruct (network e req) as [fresh| |]; [|simpl|done].
  - by destruct (ok fresh).
  - rewrite partition_create_if_absent.
    destruct (match_fails e CACHE_ASSETS (url req)); [done|]. simpl.
    by destruct (entries_match (partition w CACHE_ASSETS) (url req)).
Qed.

(** ** What each strategy leaves in the store *)

Lemma respond_html_store e w req :
  snd (respond_html req e w) =
  if open_fails e CACHE_HTML then w
  else
    let w0 := create_if_absent w CACHE_HTML in
    match network e (with_cache req "no-store") with
    | Fulfilled fresh =>
        if ok fresh && negb (put_fails e CACHE_HTML (url req) fresh)
        then set_caches w0 (alter (fun es => entries_put es (url req) fresh)
                                  CACHE_HTML (caches w0))
        else w0
    | _ => w0
    end.
Proof.
  unfold respond_html, bind, try_catch, caches_open, fetch, detach, ret,
    cache_match, self_location, cache_put.
  destruct (open_fails e CACHE_HTML); [done|].
  destruct (network e (with_cache req "no-store")) as [fresh| |]; [|simpl|done].
  - destruct (ok fresh); [|done]. simpl.
    by destruct (put_fails e CACHE_HTML (url req) fresh).
  - destruct (match_fails e CACHE_HTML (url req)); [done|]. simpl.
    destruct (entries_match _ (url req)); [done|].
    destruct (match_fails e CACHE_HTML _); [done|]. simpl.
    by destruct (entries_match _ _).
Qed.

Lemma respond_other_store e w req :
  snd (respond_other req e w) =
  if open_fails e CACHE_ASSETS then w
  else
    let w0 := create_if_absent w CACHE_ASSETS in
    match network e req with
    | Fulfilled fresh =>
        if ok fresh && negb (put_fails e CACHE_ASSETS (url req) fresh)
        then set_caches w0 (alter (fun es => entries_put es (url req) fresh)
                                  CACHE_ASSETS (caches w0))
        else w0
    | _ => w0
    end.
Proof.
  unfold respond_other, bind, try_catch, caches_open, fetch, detach, ret,
    cache_match, cache_put.
  destruct (open_fails e CACHE_ASSETS); [done|].
  destruct (network e req) as [fresh| |]; [|simpl|done].
  - destruct (ok fresh); [|done]. simpl.
    by destruct (put_fails e CACHE_ASSETS (url req) fresh).
  - destruct (match_fails e CACHE_ASSETS (url req)); [done|]. simpl.
    by destruct (entries_match _ (url req)).
Qed.

(** Without an [ok] response from the network the asset strategy writes
    nothing. *)
Lemma respond_asset_store_unfetched e w req :
  open_fails e CACHE_ASSETS = false →
  match network e req with Fulfilled fresh => ok fresh = false | _ => True end →
  snd (respond_asset req e w) = create_if_absent w CACHE_ASSETS.
Proof.
  intros Hopen Hnet.
  assert (Hrev : ∀ w0, snd (revalidate CACHE_ASSETS req e w0) = w0).
  { intros w0. unfold revalidate, try_catch, bind at 1, fetch.
    destruct (network e req) as [fresh| |]; [|done|done].
    unfold bind, ret. by rewrite Hnet. }
  unfold respond_asset, bind, caches_open, cache_match, start, await, ret.
  rewrite Hopen.
  destruct (match_fails e CACHE_ASSETS (url req)); [done|].
  specialize (Hrev (create_if_absent w CACHE_ASSETS)).
  destruct (revalidate CACHE_ASSETS req e _) as [o w']. simpl in Hrev. subst w'.
  destruct (entries_match _ (url req)); [done|].
  by destruct o as [[?|]| |].
Qed.

(** ** The fetch listener *)

Lemma on_fetch_intercepted e req :
  on_fetch e req =
  if String.eqb (method req) "GET" && isSameOrigin e (url req)
  then Some (strategy (classify req) req)
  else None.
Proof.
  unfold on_fetch, classify.
  destruct (String.eqb (method req) "GET"); [|done]. simpl.
  destruct (isSameOrigin e (url req)); [|done]. simpl.
  destruct (isHTMLRequest req); [done|].
  by destruct (isAssetRequest req).
Qed.

Lemma on_fetch_strategy e req :
  method req = "GET" →
  isSameOrigin e (url req) = true →
  on_fetch e req = Some (strategy (classify req) req).
Proof.
  intros Hm Ho. rewrite on_fetch_intercepted, Ho, Hm. done.
Qed.

(** C1. A same-origin GET document request whose network fetch fails is
    answered with the entry cached for it in the document partition if there
    is one, else with the cached entry of the root document ./index.html if
    there is one, else with the synthesized offline response: status 503,
    Content-Type text/plain (with a charset parameter). *)
Theorem html_network_failure_fallback e w req :
  method req = "GET" →
  isSameOrigin e (url req) = true →
  classify req = Document →
  network e (with_cache req "no-store") = Rejected →
  open_fails e CACHE_HTML = false →
  (∀ k, match_fails e CACHE_HTML k = false) →
  ∃ t, on_fetch e req = Some t
       ∧ fst (t e w) =
         Fulfilled
           match entries_match (partition w CACHE_HTML) (url req) with
           | Some cached => cached
           | None =>
               match entries_match (partition w CACHE_HTML)
                       (resolve (location e) "./index.html") with
               | Some fallback => fallback
               | None => offline_response
               end
           end
       ∧ status offline_response = 503
       ∧ header_get (headers offline_response) "Content-Type"
         = Some "text/plain; charset=utf-8"
       ∧ startsWith "text/plain; charset=utf-8" "text/plain" = true.
Proof.
  intros Hm Ho Hc Hnet Hopen Hmatch.
  exists (respond_html req). split; [|split; [|done]].
  - by rewrite (on_fetch_strategy e req Hm Ho), Hc.
  - rewrite respond_html_outcome, Hopen, Hnet, !Hmatch.
    destruct (entries_match _ (url req)); [done|].
    by destruct (entries_match _ _).
Qed.

Lemma html_network_failure_fallback_witness :
  let e := sample_env Rejected in
  let w := sample_worker {[ CACHE_HTML := [(page "index.html", sample_response 200 "home")] ]} in
  let req := navigation "about.html" in
  ∃ t, on_fetch e req = Some t
       ∧ fst (t e w) =
         Fulfilled
           match entries_match (partition w CACHE_HTML) (url req) with
           | Some cached => cached
           | None =>
               match entries_match (partition w CACHE_HTML)
                       (resolve (location e) "./index.html") with
               | Some fallback => fallback
               | None => offline_response
               end
           end
       ∧ status offline_response = 503
       ∧ header_get (headers offline_response) "Content-Type"
         = Some "text/plain; charset=utf-8"
       ∧ startsWith "text/plain; charset=utf-8" "text/plain" = true.
Proof.
  apply html_network_failure_fallback.
  - reflexivity.
  - reflexivity.
  - reflexivity.
  - reflexivity.
  - reflexivity.
  - intros k. reflexivity.
Defined.

(** C2. An asset request that has an entry in the asset partition is
    answered with that entry whatever the network does: two runs from the
    same store under any two networks (fetch fulfilled, rejected or never
    settled) and any write or trim failures give the same response. *)
Theorem asset_cached_whatever_network e1 e2 w req cached :
  method req = "GET" →
  isSameOrigin e1 (url req) = true →
  isSameOrigin e2 (url req) = true →
  classify req = Asset →
  entries_match (partition w CACHE_ASSETS) (url req) = Some cached →
  open_fails e1 CACHE_ASSETS = false →
  open_fails e2 CACHE_ASSETS = false →
  match_fails e1 CACHE_ASSETS (url req) = false →
  match_fails e2 CACHE_ASSETS (url req) = false →
  ∃ t, on_fetch e1 req = Some t
       ∧ on_fetch e2 req = Some t
       ∧ fst (t e1 w) = Fulfilled cached
       ∧ fst (t e2 w) = Fulfilled cached.
Proof.
  intros Hm Ho1 Ho2 Hc Hcached Hopen1 Hopen2 Hmatch1 Hmatch2.
  exists (respond_asset req).
  rewrite (on_fetch_strategy e1 req Hm Ho1), (on_fetch_strategy e2 req Hm Ho2), Hc.
  rewrite !respond_asset_outcome.
  by rewrite Hopen1, Hopen2, Hmatch1, Hmatch2, Hcached.
Qed.

Lemma asset_cached_whatever_network_witness :
  let e1 := sample_env (Fulfilled (sample_response 200 "new")) in
  let e2 := sample_env Pending in
  let w := sample_worker {[ CACHE_ASSETS := three_entries ]} in
  let req := subresource "b.js" "script" in
  ∃ t, on_fetch e1 req = Some t
       ∧ on_fetch e2 req = Some t
       ∧ fst (t e1 w) = Fulfilled (sample_response 200 "b")
       ∧ fst (t e2 w) = Fulfilled (sample_response 200 "b").
Proof.
  apply asset_cached_whatever_network; reflexivity.
Defined.

(** C5, as stated, fails: a navigation that the network answers with a
    partial response (status 206, a successful status) gets that response,
    but [cache.put] refuses it, the handler swallows the rejection, and the
    document partition holds no entry for the request.  No storage fault is
    needed for that. *)
Lemma partial_response_not_stored :
  ¬ (∀ e w req fresh t,
       on_fetch e req = Some t →
       classify req = Document →
       network e (with_cache req "no-store") = Fulfilled fresh →
       ok fresh = true →
       (∀ c, open_fails e c = false) →
       (∀ c k r, put_faulty e c k r = false) →
       is_Some (entries_match (partition (snd (t e w)) CACHE_HTML) (url req))).
Proof.
  intros H.
  specialize (H (sample_env (Fulfilled (sample_response 206 "part")))
                (sample_worker ∅) (navigation "index.html")
                (sample_response 206 "part")
                (respond_html (navigation "index.html"))
                eq_refl eq_refl eq_refl eq_refl
                (fun _ => eq_refl) (fun _ _ _ => eq_refl)).
  vm_compute in H. destruct H as [r Hr]. discriminate Hr.
Qed.

(** C5, amended. A same-origin GET document request whose network fetch is
    fulfilled with a successful status is answered with the network response,
    body included.  Afterwards the document partition holds that response
    under the request's key when [cache.put] takes it: the response is not
    partial (206), its Vary header has no star, and the storage does not
    fail the write.  Otherwise the rejection is swallowed and the partition
    answers for that key what it answered before. *)
Theorem html_network_success_stored e w req fresh :
  method req = "GET" →
  isSameOrigin e (url req) = true →
  classify req = Document →
  network e (with_cache req "no-store") = Fulfilled fresh →
  ok fresh = true →
  open_fails e CACHE_HTML = false →
  ∃ t returned,
    on_fetch e req = Some t
    ∧ fst (t e w) = Fulfilled returned
    ∧ returned = fresh
    ∧ body returned = body fresh
    ∧ entries_match (partition (snd (t e w)) CACHE_HTML) (url req)
      = if unstorable fresh || put_faulty e CACHE_HTML (url req) fresh
        then entries_match (partition w CACHE_HTML) (url req)
        else Some fresh.
Proof.
  intros Hm Ho Hc Hnet Hok Hopen.
  exists (respond_html req), fresh. split; [|split; [|split; [|split]]]; try done.
  - by rewrite (on_fetch_strategy e req Hm Ho), Hc.
  - by rewrite respond_html_outcome, Hopen, Hnet.
  - rewrite respond_html_store, Hopen, Hnet, Hok.
    change (unstorable fresh || put_faulty e CACHE_HTML (url req) fresh)
      with (put_fails e CACHE_HTML (url req) fresh).
    destruct (put_fails e CACHE_HTML (url req) fresh); simpl.
    + by rewrite partition_create_if_absent.
    + rewrite partition_alter by apply create_if_absent_present.
      destruct (decide (CACHE_HTML = CACHE_HTML)); [|done].
      rewrite entries_match_put. by destruct (decide (url req = url req)).
Qed.

Lemma html_network_success_stored_witness :
  let fresh := sample_response 200 "home" in
  let partial := sample_response 206 "part" in
  let w := sample_worker ∅ in
  let req := navigation "index.html" in
  (∃ t returned,
     on_fetch (sample_env (Fulfilled fresh)) req = Some t
     ∧ fst (t (sample_env (Fulfilled fresh)) w) = Fulfilled returned
     ∧ returned = fresh
     ∧ body returned = body fresh
     ∧ entries_match (partition (snd (t (sample_env (Fulfilled fresh)) w)) CACHE_HTML)
         (url req) = Some fresh)
  ∧ (∃ t returned,
       on_fetch (sample_env (Fulfilled partial)) req = Some t
       ∧ fst (t (sample_env (Fulfilled partial)) w) = Fulfilled returned
       ∧ returned = partial
       ∧ body returned = body partial
       ∧ entries_match (partition (snd (t (sample_env (Fulfilled partial)) w)) CACHE_HTML)
           (url req) = None).
Proof.
  split.
  - apply (html_network_success_stored
             (sample_env (Fulfilled (sample_response 200 "home")))
             (sample_worker ∅) (navigation "index.html")
             (sample_response 200 "home")); reflexivity.
  - destruct (html_network_success_stored
                (sample_env (Fulfilled (sample_response 206 "part")))
                (sample_worker ∅) (navigation "index.html")
                (sample_response 206 "part"))
      as (t & returned & Ht & Hret & Heq & Hbody & Hstore); try reflexivity.
    exists t, returned. repeat split; assumption.
Defined.

(** C6. An asset request with no cached entry whose network fetch fails, and
    a request of the category other whose network fetch fails and that has
    no matching cached entry, are answered with the synthesized failure:
    status 504 and an empty body. *)
Theorem total_failure_gateway_timeout e w req :
  method req = "GET" →
  isSameOrigin e (url req) = true →
  classify req = Asset ∨ classify req = Other →
  network e req = Rejected →
  entries_match (partition w CACHE_ASSETS) (url req) = None →
  open_fails e CACHE_ASSETS = false →
  match_fails e CACHE_ASSETS (url req) = false →
  ∃ t returned,
    on_fetch e req = Some t
    ∧ fst (t e w) = Fulfilled returned
    ∧ status returned = 504
    ∧ body returned = "".
Proof.
  intros Hm Ho Hc Hnet Hmiss Hopen Hmatch.
  exists (strategy (classify req) req), timeout_response.
  split; [by apply on_fetch_strategy|]. split; [|done].
  destruct Hc as [-> | ->]; simpl.
  - by rewrite respond_asset_outcome, Hopen, Hmatch, Hmiss, Hnet.
  - by rewrite respond_other_outcome, Hopen, Hnet, Hmatch, Hmiss.
Qed.

Lemma total_failure_gateway_timeout_witness :
  let e := sample_env Rejected in
  let w := sample_worker {[ CACHE_ASSETS := three_entries ]} in
  let req := subresource "data.json" "" in
  ∃ t returned,
    on_fetch e req = Some t
    ∧ fst (t e w) = Fulfilled returned
    ∧ status returned = 504
    ∧ body returned = "".
Proof.
  apply total_failure_gateway_timeout; try reflexivity.
  right. reflexivity.
Defined.

(** C10. When the network answers with a status that is not successful, the
    request, whatever its category, is answered with that very response;
    no partition gains or loses an entry; and for the categories document
    and other the answer is the same over any store, so no cached entry is
    looked at.  For an asset request this is the case when no entry is
    cached for it. *)
Theorem error_status_passed_through e w req fresh :
  method req = "GET" →
  isSameOrigin e (url req) = true →
  network e (sent_request (classify req) req) = Fulfilled fresh →
  ok fresh = false →
  open_fails e (partition_of (classify req)) = false →
  (classify req = Asset →
   match_fails e CACHE_ASSETS (url req) = false
   ∧ entries_match (partition w CACHE_ASSETS) (url req) = None) →
  ∃ t, on_fetch e req = Some t
       ∧ fst (t e w) = Fulfilled fresh
       ∧ (∀ n, partition (snd (t e w)) n = partition w n)
       ∧ (classify req ≠ Asset → ∀ w', fst (t e w') = Fulfilled fresh).
Proof.
  intros Hm Ho Hnet Hok Hopen Hasset.
  exists (strategy (classify req) req).
  split; [by apply on_fetch_strategy|].
  destruct (classify req); simpl in *.
  - split; [|split].
    + by rewrite respond_html_outcome, Hopen, Hnet.
    + intros n. rewrite respond_html_store, Hopen, Hnet, Hok. simpl.
      apply partition_create_if_absent.
    + intros _ w'. by rewrite respond_html_outcome, Hopen, Hnet.
  - destruct Hasset as [Hmatch Hmiss]; [done|].
    split; [|split].
    + by rewrite respond_asset_outcome, Hopen, Hmatch, Hmiss, Hnet.
    + intros n. rewrite respond_asset_store_unfetched; [|done|by rewrite Hnet].
      apply partition_create_if_absent.
    + done.
  - split; [|split].
    + by rewrite respond_other_outcome, Hopen, Hnet.
    + intros n. rewrite respond_other_store, Hopen, Hnet, Hok. simpl.
      apply partition_create_if_absent.
    + intros _ w'. by rewrite respond_other_outcome, Hopen, Hnet.
Qed.

Lemma error_status_passed_through_witness :
  let fresh := sample_response 404 "not found" in
  let e := sample_env (Fulfilled fresh) in
  let w := sample_worker {[ CACHE_HTML := [(page "index.html", sample_response 200 "home")] ]} in
  let req := navigation "index.html" in
  ∃ t, on_fetch e req = Some t
       ∧ fst (t e w) = Fulfilled fresh
       ∧ (∀ n, partition (snd (t e w)) n = partition w n)
       ∧ (classify req ≠ Asset → ∀ w', fst (t e w') = Fulfilled fresh).
Proof.
  apply error_status_passed_through; try reflexivity.
  intros H. discriminate H.
Defined.

(** ** Classification *)

Lemma isHTMLRequest_spec req :
  isHTMLRequest req = true ↔
  mode req = "navigate" ∨ includes (default "" (accept req)) "text/html" = true.
Proof.
  unfold isHTMLRequest. rewrite orb_true_iff, String.eqb_eq. done.
Qed.

Lemma isAssetRequest_spec req :
  isAssetRequest req = true ↔ destination req ∈ asset_destinations.
Proof.
  unfold isAssetRequest, asset_destinations.
  rewrite !orb_true_iff, !String.eqb_eq, !elem_of_cons, elem_of_nil. tauto.
Qed.

(** C7, as stated, fails: a request whose destination is image and whose
    accept header includes text/html is classified document, not asset. *)
Lemma asset_iff_destination_refuted :
  ¬ (∀ e req,
       is_Some (on_fetch e req) →
       (classify req = Document ↔ isHTMLRequest req = true)
       ∧ (classify req = Asset ↔ destination req ∈ asset_destinations)).
Proof.
  intros H.
  destruct (H (sample_env Rejected) overlapping_request) as [_ [_ Hasset]].
  { by eexists. }
  assert (Hdest : destination overlapping_request ∈ asset_destinations).
  { apply isAssetRequest_spec. reflexivity. }
  specialize (Hasset Hdest). discriminate Hasset.
Qed.

(** C7, amended. The fetch listener tests for a document first: a request is
    classified document iff it is a navigation or its accept header includes
    text/html; asset iff it is not a document and its destination is script,
    style, image, font, audio or video; other iff neither.  A request gets
    the one category [classify] computes, and a same-origin GET request is
    answered by the strategy of its category; any other request is not
    intercepted. *)
Theorem classify_by_dispatch_order req :
  let html := mode req = "navigate"
              ∨ includes (default "" (accept req)) "text/html" = true in
  (classify req = Document ↔ html)
  ∧ (classify req = Asset ↔ ¬ html ∧ destination req ∈ asset_destinations)
  ∧ (classify req = Other ↔ ¬ html ∧ destination req ∉ asset_destinations)
  ∧ (∀ e, on_fetch e req =
          if String.eqb (method req) "GET" && isSameOrigin e (url req)
          then Some (strategy (classify req) req)
          else None).
Proof.
  intros html. unfold html. rewrite <- isHTMLRequest_spec, <- isAssetRequest_spec.
  assert (Hcases :
    (classify req = Document ↔ isHTMLRequest req = true)
    ∧ (classify req = Asset ↔ isHTMLRequest req ≠ true ∧ isAssetRequest req = true)
    ∧ (classify req = Other ↔ isHTMLRequest req ≠ true ∧ isAssetRequest req ≠ true)).
  { unfold classify.
    destruct (isHTMLRequest req), (isAssetRequest req); intuition congruence. }
  destruct Hcases as (Hd & Ha & Ho).
  split; [exact Hd|]. split; [exact Ha|]. split; [exact Ho|].
  intros e. apply on_fetch_intercepted.
Qed.

(** ** Storage failures *)

(** C9, as stated, fails: with the network up, a navigation is answered with
    a rejected promise when [caches.open], awaited outside the [try], is
    rejected. *)
Lemma rejected_open_surfaces :
  ¬ (∀ e w req t,
       on_fetch e req = Some t →
       network e (sent_request (classify req) req) ≠ Pending →
       ∃ r, fst (t e w) = Fulfilled r).
Proof.
  intros H.
  destruct (H (broken_storage_env (Fulfilled (sample_response 200 "home")))
              (sample_worker ∅) (navigation "index.html")
              (respond_html (navigation "index.html")))
    as [r Hr]; [reflexivity|discriminate|].
  discriminate Hr.
Qed.

(** C9, amended. For each of the three strategies, which writes and trims
    are rejected has no influence on the answer, and rejected writes and
    trims are never surfaced.  When moreover [caches.open] and [cache.match]
    are not rejected and the network settles, a navigation is answered with
    the network's response, the cached entry, the cached root document or
    the offline notice.  A rejected [caches.open] does reject the answer. *)
Theorem write_failures_not_surfaced e w req cat pf kf df :
  fst (strategy cat req (with_write_faults e pf kf df) w) = fst (strategy cat req e w)
  ∧ (open_fails e CACHE_HTML = false →
     (∀ k, match_fails e CACHE_HTML k = false) →
     network e (with_cache req "no-store") ≠ Pending →
     ∃ r, fst (respond_html req (with_write_faults e pf kf df) w) = Fulfilled r
          ∧ (network e (with_cache req "no-store") = Fulfilled r
             ∨ entries_match (partition w CACHE_HTML) (url req) = Some r
             ∨ entries_match (partition w CACHE_HTML)
                 (resolve (location e) "./index.html") = Some r
             ∨ r = offline_response))
  ∧ (open_fails e (partition_of cat) = true →
     fst (strategy cat req e w) = Rejected).
Proof.
  split; [|split].
  - destruct cat; simpl.
    + by rewrite !respond_html_outcome.
    + by rewrite !respond_asset_outcome.
    + by rewrite !respond_other_outcome.
  - intros Hopen Hmatch Hnet. rewrite respond_html_outcome. simpl.
    rewrite Hopen, !Hmatch.
    destruct (network e (with_cache req "no-store")) as [fresh| |]; [| |done].
    + exists fresh. auto.
    + destruct (entries_match _ (url req)) as [c|] eqn:Hc; [exists c; auto|].
      destruct (entries_match _ (resolve _ _)) as [f|] eqn:Hf; [exists f; auto|].
      exists offline_response. auto 6.
  - intros Hopen. destruct cat; simpl in *.
    + by rewrite respond_html_outcome, Hopen.
    + by rewrite respond_asset_outcome, Hopen.
    + by rewrite respond_other_outcome, Hopen.
Qed.

Lemma write_failures_not_surfaced_witness :
  let e := sample_env Rejected in
  let w := sample_worker {[ CACHE_HTML := [(page "index.html", sample_response 200 "home")] ]} in
  let req := navigation "about.html" in
  let pf := fun _ _ _ => true in
  let kf := fun _ => true in
  let df := fun _ _ => true in
  (∃ r, fst (respond_html req (with_write_faults e pf kf df) w) = Fulfilled r
        ∧ (network e (with_cache req "no-store") = Fulfilled r
           ∨ entries_match (partition w CACHE_HTML) (url req) = Some r
           ∨ entries_match (partition w CACHE_HTML)
               (resolve (location e) "./index.html") = Some r
           ∨ r = offline_response))
  ∧ fst (strategy Asset (subresource "b.js" "script")
           (broken_storage_env Rejected) w) = Rejected.
Proof.
  split.
  - apply (write_failures_not_surfaced (sample_env Rejected)
             (sample_worker {[ CACHE_HTML := [(page "index.html", sample_response 200 "home")] ]})
             (navigation "about.html") Document).
    + reflexivity.
    + intros k. reflexivity.
    + discriminate.
  - apply (write_failures_not_surfaced (broken_storage_env Rejected)
             (sample_worker {[ CACHE_HTML := [(page "index.html", sample_response 200 "home")] ]})
             (subresource "b.js" "script") Asset
             (fun _ _ _ => false) (fun _ => false) (fun _ _ => false)).
    reflexivity.
Defined.

(** ** Deleting partitions *)

Lemma existsb_map_const {A B} (f : B → bool) (b : B) (l : list A) :
  f b = false → existsb f (map (fun _ => b) l) = false.
Proof. intros H. induction l; simpl; [done|]. by rewrite H. Qed.

Lemma run_all_delete e ds w :
  (∀ k, storage_delete_fails e k = false) →
  ∃ m', run_all (map caches_delete ds) e w
        = (map (fun _ => Fulfilled tt) ds, set_caches w m')
        ∧ ∀ n, m' !! n = if decide (n ∈ ds) then None else caches w !! n.
Proof.
  intros Hdel. revert w.
  induction ds as [|k ds IH]; intros w; simpl.
  - exists (caches w). by rewrite set_caches_id.
  - unfold caches_delete at 1. rewrite Hdel.
    destruct (IH (set_caches w (delete k (caches w)))) as (m' & -> & Hm').
    exists m'. split; [done|].
    intros n. rewrite Hm'. simpl.
    destruct (decide (n = k)) as [->|Hne].
    + rewrite (decide_True _ _ (list_elem_of_here k ds)), lookup_delete_eq.
      by destruct (decide (k ∈ ds)).
    + rewrite lookup_delete_ne by done.
      destruct (decide (n ∈ ds)) as [Hin|Hnin].
      * by rewrite (decide_True _ _ (list_elem_of_further n k ds Hin)).
      * rewrite decide_False; [done|]. intros [?|?]%elem_of_cons; done.
Qed.

(** ** activate *)

Lemma startsWith_trans s p q :
  startsWith s p = true → startsWith p q = true → startsWith s q = true.
Proof.
  unfold startsWith. revert p q.
  induction s as [|a s IH]; intros [|b p] [|c q]; simpl; try done.
  destruct (ascii_dec b a) as [->|]; [|done].
  destruct (ascii_dec c a) as [->|]; [|done]. apply IH.
Qed.

Lemma run_all_cleanup e keys w :
  (∀ k, storage_delete_fails e k = false) →
  ∃ m', run_all (map cleanup keys) e w
        = (map (fun _ => Fulfilled tt) keys, set_caches w m')
        ∧ ∀ n, m' !! n = if decide (n ∈ keys)
                         then (if obsolete n then None else caches w !! n)
                         else caches w !! n.
Proof.
  intros Hdel. revert w.
  induction keys as [|k keys IH]; intros w; simpl.
  - exists (caches w). by rewrite set_caches_id.
  - assert (Hk : cleanup k e w =
                 (Fulfilled tt,
                  set_caches w (if obsolete k then delete k (caches w) else caches w))).
    { unfold cleanup, caches_delete, ret.
      destruct (obsolete k); [by rewrite Hdel|by rewrite set_caches_id]. }
    rewrite Hk.
    destruct (IH (set_caches w (if obsolete k then delete k (caches w) else caches w)))
      as (m' & -> & Hm').
    exists m'. split; [done|].
    intros n. rewrite Hm'. simpl.
    destruct (decide (n = k)) as [->|Hne].
    + rewrite (decide_True _ _ (list_elem_of_here k keys)).
      destruct (obsolete k) eqn:Hob.
      * rewrite lookup_delete_eq. by destruct (decide (k ∈ keys)).
      * by destruct (decide (k ∈ keys)).
    + assert (Hother : (if obsolete k then delete k (caches w) else caches w) !! n
                       = caches w !! n).
      { destruct (obsolete k); [by rewrite lookup_delete_ne|done]. }
      rewrite Hother.
      destruct (decide (n ∈ keys)) as [Hin|Hnin].
      * by rewrite (decide_True _ _ (list_elem_of_further n k keys Hin)).
      * rewrite decide_False; [done|].
        intros [?|?]%elem_of_cons; done.
Qed.

Lemma activate_run e w :
  storage_keys_fails e = false →
  (∀ k, storage_delete_fails e k = false) →
  ∃ m', activate e w = (Fulfilled tt, mkWorker m' (skipWaitingCalled w) true)
        ∧ ∀ n, m' !! n = if obsolete n then None else caches w !! n.
Proof.
  intros Hkeys Hdel.
  destruct (run_all_cleanup e (map fst (map_to_list (caches w))) w Hdel)
    as (m' & Hrun & Hm').
  exists m'. split.
  - unfold activate, bind, caches_keys, all, clients_claim. rewrite Hkeys, Hrun.
    by rewrite !existsb_map_const.
  - intros n. rewrite Hm'.
    destruct (decide (n ∈ map fst (map_to_list (caches w)))) as [Hin|Hnin]; [done|].
    destruct (caches w !! n) as [es|] eqn:Hn; [|by destruct (obsolete n)].
    exfalso. apply Hnin. apply list_elem_of_fmap. exists (n, es).
    split; [done|]. by apply elem_of_map_to_list.
Qed.

Lemma elem_of_allowed n : n ∈ allowed ↔ n = CACHE_HTML ∨ n = CACHE_ASSETS.
Proof. unfold allowed. rewrite elem_of_union, !elem_of_singleton. done. Qed.

Lemma obsolete_spec n :
  obsolete n = true ↔
  startsWith n CACHE_PREFIX = true ∧ n ≠ CACHE_HTML ∧ n ≠ CACHE_ASSETS.
Proof.
  unfold obsolete.
  rewrite andb_true_iff, negb_true_iff, bool_decide_eq_false, elem_of_allowed.
  tauto.
Qed.

(** C3. Activation deletes every partition whose name starts with the
    prefix and is neither of the two current names, and no other: partitions
    without the prefix and the two current ones keep their entries.
    Afterwards a partition named as a document partition can only be the
    current one, likewise for asset partitions, and the current ones, once
    opened by install, are still there: exactly one of each kind. *)
Theorem activate_deletes_old_generations e w :
  storage_keys_fails e = false →
  (∀ k, storage_delete_fails e k = false) →
  ∃ w', activate e w = (Fulfilled tt, w')
    ∧ (∀ n, startsWith n CACHE_PREFIX = true → n ≠ CACHE_HTML → n ≠ CACHE_ASSETS →
            caches w' !! n = None)
    ∧ (∀ n, startsWith n CACHE_PREFIX = false ∨ n = CACHE_HTML ∨ n = CACHE_ASSETS →
            caches w' !! n = caches w !! n)
    ∧ (∀ n, is_Some (caches w' !! n) →
            (startsWith n (CACHE_PREFIX ++ "-html-") = true ↔ n = CACHE_HTML)
            ∧ (startsWith n (CACHE_PREFIX ++ "-assets-") = true ↔ n = CACHE_ASSETS))
    ∧ (is_Some (caches w !! CACHE_HTML) → is_Some (caches w !! CACHE_ASSETS) →
       is_Some (caches w' !! CACHE_HTML) ∧ is_Some (caches w' !! CACHE_ASSETS))
    ∧ clientsClaimed w' = true.
Proof.
  intros Hkeys Hdel.
  destruct (activate_run e w Hkeys Hdel) as (m' & Hrun & Hm').
  exists (mkWorker m' (skipWaitingCalled w) true). simpl.
  assert (Hgone : ∀ n, startsWith n CACHE_PREFIX = true → n ≠ CACHE_HTML →
                       n ≠ CACHE_ASSETS → m' !! n = None).
  { intros n Hp Hh Ha. rewrite Hm'.
    by rewrite (proj2 (obsolete_spec n) (conj Hp (conj Hh Ha))). }
  assert (Hkept : ∀ n, startsWith n CACHE_PREFIX = false ∨ n = CACHE_HTML
                       ∨ n = CACHE_ASSETS → m' !! n = caches w !! n).
  { intros n Hn. rewrite Hm'. destruct (obsolete n) eqn:Hob; [|done].
    apply obsolete_spec in Hob as (Hp & Hh & Ha).
    destruct Hn as [Hn|[Hn|Hn]]; congruence. }
  split; [done|]. split; [done|]. split; [done|]. split; [|split; [|done]].
  - intros n Hn.
    assert (Hcur : startsWith n CACHE_PREFIX = true → n = CACHE_HTML ∨ n = CACHE_ASSETS).
    { intros Hp. destruct (decide (n = CACHE_HTML)) as [|Hh]; [by left|].
      destruct (decide (n = CACHE_ASSETS)) as [|Ha]; [by right|].
      rewrite (Hgone n Hp Hh Ha) in Hn. by destruct Hn. }
    split; (split; [|by intros ->]); intros Hp.
    + destruct Hcur as [->| ->]; [|done|discriminate Hp].
      by apply (startsWith_trans _ _ _ Hp).
    + destruct Hcur as [->| ->]; [|discriminate Hp|done].
      by apply (startsWith_trans _ _ _ Hp).
  - intros Hh Ha. rewrite !Hkept by auto. done.
Qed.

Lemma activate_deletes_old_generations_witness :
  let e := sample_env Rejected in
  let w := sample_worker store_with_old_generation in
  ∃ w', activate e w = (Fulfilled tt, w')
        ∧ caches w' !! "svetla-html-2025-11-02_01" = None
        ∧ caches w' !! "notes-v1" = caches w !! "notes-v1"
        ∧ caches w' !! "barvy-v7" = caches w !! "barvy-v7"
        ∧ caches w' !! CACHE_HTML = caches w !! CACHE_HTML
        ∧ caches w' !! CACHE_ASSETS = caches w !! CACHE_ASSETS
        ∧ is_Some (caches w' !! CACHE_HTML)
        ∧ is_Some (caches w' !! CACHE_ASSETS).
Proof.
  destruct (activate_deletes_old_generations (sample_env Rejected)
              (sample_worker store_with_old_generation))
    as (w' & Hrun & Hgone & Hkept & _ & Hcur & _).
  - reflexivity.
  - intros k. reflexivity.
  - exists w'. split; [exact Hrun|]. split; [|split; [|split; [|split; [|split]]]].
    + apply Hgone; [reflexivity|discriminate|discriminate].
    + apply Hkept. left. reflexivity.
    + apply Hkept. left. reflexivity.
    + apply Hkept. right. left. reflexivity.
    + apply Hkept. right. right. reflexivity.
    + apply Hcur; vm_compute; eexists; reflexivity.
Defined.

(** ** install *)

Lemma precache_store cache p e w :
  snd (precache cache p e w) =
  set_caches w (alter (fun es => precached e cache es p) cache (caches w)).
Proof.
  assert (Hsame : ∀ f : Cache → Cache, (∀ es, f es = es) →
                  set_caches w (alter f cache (caches w)) = w).
  { intros f Hf. rewrite alter_id by (intros; apply Hf). apply set_caches_id. }
  unfold precache, precached, bind, self_location, fetch, cache_put, ret.
  destruct (network e (new_Request (location e) p "reload")) as [res| |];
    [|by rewrite Hsame|by rewrite Hsame].
  destruct (ok res); [|by rewrite Hsame].
  destruct (put_fails e cache _ res); [by rewrite Hsame|done].
Qed.

Lemma precache_settles cache p e w :
  network e (new_Request (location e) p "reload") ≠ Pending →
  is_pending (fst (precache cache p e w)) = false.
Proof.
  intros Hnet. unfold precache, bind, self_location, fetch, cache_put, ret.
  destruct (network e (new_Request (location e) p "reload")) as [res| |]; [|done|done].
  destruct (ok res); [|done]. by destruct (put_fails e cache _ res).
Qed.

Lemma run_all_precache cache l e w :
  snd (run_all (map (precache cache) l) e w) =
  set_caches w (alter (fun es => fold_left (precached e cache) l es) cache (caches w))
  ∧ ((∀ p, p ∈ l → network e (new_Request (location e) p "reload") ≠ Pending) →
     existsb is_pending (fst (run_all (map (precache cache) l) e w)) = false).
Proof.
  revert w. induction l as [|p l IH]; intros w; simpl.
  - split; [|done]. rewrite alter_id by done. by rewrite set_caches_id.
  - pose proof (precache_store cache p e w) as Hstore.
    pose proof (precache_settles cache p e w) as Hsettle.
    destruct (precache cache p e w) as [o w1]. simpl in Hstore, Hsettle. subst w1.
    destruct (IH (set_caches w (alter (fun es => precached e cache es p) cache (caches w))))
      as [IHstore IHsettle].
    destruct (run_all (map (precache cache) l) e _) as [os w2].
    simpl in *. split.
    + rewrite IHstore. f_equal.
      by rewrite alter_alter_eq.
    + intros Hnet. rewrite Hsettle, IHsettle; [done| |].
      * intros q Hq. apply Hnet. by apply list_elem_of_further.
      * apply Hnet. apply list_elem_of_here.
Qed.

Lemma fold_precached_other e cache l (es : Cache) k :
  k ∉ map (resolve (location e)) l →
  entries_match (fold_left (precached e cache) l es) k = entries_match es k.
Proof.
  revert es. induction l as [|p l IH]; intros es Hk; simpl; [done|].
  simpl in Hk. apply not_elem_of_cons in Hk as [Hne Hk].
  rewrite IH by done. unfold precached.
  destruct (network e _) as [res| |]; [|done|done].
  destruct (ok res && negb (put_fails e cache _ res)); [|done].
  rewrite entries_match_put. simpl. by destruct (decide (resolve (location e) p = k)).
Qed.

Lemma fold_precached_stored e cache l (es : Cache) p fresh :
  NoDup (map (resolve (location e)) l) →
  p ∈ l →
  network e (new_Request (location e) p "reload") = Fulfilled fresh →
  ok fresh = true →
  put_fails e cache (resolve (location e) p) fresh = false →
  entries_match (fold_left (precached e cache) l es) (resolve (location e) p)
  = Some fresh.
Proof.
  revert es. induction l as [|q l IH]; intros es Hnd Hp Hnet Hok Hput.
  - by apply elem_of_nil in Hp.
  - simpl in Hnd. apply NoDup_cons in Hnd as [Hq Hnd]. simpl.
    destruct (decide (resolve (location e) p ∈ map (resolve (location e)) l)) as [Hin|Hnin].
    + apply elem_of_cons in Hp as [->|Hp]; [done|]. by apply IH.
    + apply elem_of_cons in Hp as [->|Hp].
      * rewrite fold_precached_other by done.
        unfold precached. rewrite Hnet, Hok. simpl in *. rewrite Hput. simpl.
        rewrite entries_match_put. by destruct (decide (resolve (location e) q = resolve (location e) q)).
      * exfalso. apply Hnin. apply list_elem_of_fmap. by exists p.
Qed.

Lemma append_inv_head (s a b : string) : s ++ a = s ++ b → a = b.
Proof. induction s as [|c s IH]; simpl; [done|]. intros [= H]. by apply IH. Qed.

(** The manifest paths resolve to pairwise distinct URLs, whatever the
    worker's location. *)
Lemma resolve_manifest_NoDup base :
  NoDup (map (resolve base) htmlList) ∧ NoDup (map (resolve base) assetList).
Proof.
  set (at_dir := fun s : string => mkURL (origin base) (dirname (pathname base) ++ s)).
  assert (Hinj : Inj (=) (=) at_dir).
  { intros a b [= H]. by apply append_inv_head in H. }
  split.
  - change (NoDup (at_dir <$> [""; "index.html"])).
    apply (NoDup_fmap_2 at_dir). apply (bool_decide_unpack _). by vm_compute.
  - change (NoDup (at_dir <$> ["manifest.json"; "sw.js"; "icons/icon-192.png";
                                "icons/icon-512.png"])).
    apply (NoDup_fmap_2 at_dir). apply (bool_decide_unpack _). by vm_compute.
Qed.

Lemma existsb_eqb_elem (p : string) (l : list string) :
  existsb (String.eqb p) l = true ↔ p ∈ l.
Proof.
  induction l as [|q l IH]; simpl.
  - split; [done|by intros ?%elem_of_nil].
  - rewrite orb_true_iff, String.eqb_eq, IH, elem_of_cons. done.
Qed.

Lemma manifest_split p :
  p ∈ CORE_ASSETS →
  if existsb (String.eqb p) htmlList then p ∈ htmlList else p ∈ assetList.
Proof.
  intros Hp. destruct (existsb (String.eqb p) htmlList) eqn:Hh.
  - by apply existsb_eqb_elem.
  - unfold assetList. apply list_elem_of_In, filter_In.
    split; [by apply list_elem_of_In|by rewrite Hh].
Qed.

Lemma install_run e w :
  open_fails e CACHE_HTML = false →
  open_fails e CACHE_ASSETS = false →
  (∀ p, p ∈ CORE_ASSETS → network e (new_Request (location e) p "reload") ≠ Pending) →
  let w0 := create_if_absent (create_if_absent w CACHE_HTML) CACHE_ASSETS in
  install e w =
  (Fulfilled tt,
   mkWorker
     (alter (fun es => fold_left (precached e CACHE_ASSETS) assetList es) CACHE_ASSETS
        (alter (fun es => fold_left (precached e CACHE_HTML) htmlList es) CACHE_HTML
           (caches w0)))
     true (clientsClaimed w0)).
Proof.
  intros Hopen1 Hopen2 Hnet w0.
  unfold install, bind, caches_open, allSettled, skipWaiting. rewrite Hopen1, Hopen2.
  fold w0.
  destruct (run_all_precache CACHE_HTML htmlList e w0) as [Hs1 Hp1].
  destruct (run_all (map (precache CACHE_HTML) htmlList) e w0) as [os1 w1].
  simpl in Hs1, Hp1. rewrite Hp1.
  2:{ intros p Hp. apply Hnet. apply list_elem_of_In.
      apply list_elem_of_In in Hp. unfold htmlList in Hp.
      by apply filter_In in Hp as [Hp _]. }
  destruct (run_all_precache CACHE_ASSETS assetList e w1) as [Hs2 Hp2].
  destruct (run_all (map (precache CACHE_ASSETS) assetList) e w1) as [os2 w2].
  simpl in Hs2, Hp2. rewrite Hp2.
  2:{ intros p Hp. apply Hnet. apply list_elem_of_In.
      apply list_elem_of_In in Hp. unfold assetList in Hp.
      by apply filter_In in Hp as [Hp _]. }
  subst w2 w1. done.
Qed.

(** Install leaves both current partitions in the store. *)
Lemma install_opens_both e w w' :
  open_fails e CACHE_HTML = false →
  open_fails e CACHE_ASSETS = false →
  (∀ p, p ∈ CORE_ASSETS → network e (new_Request (location e) p "reload") ≠ Pending) →
  install e w = (Fulfilled tt, w') →
  is_Some (caches w' !! CACHE_HTML) ∧ is_Some (caches w' !! CACHE_ASSETS).
Proof.
  intros Hopen1 Hopen2 Hnet. rewrite install_run by done. intros [= <-]. simpl.
  rewrite !alter_keeps. split.
  - apply create_if_absent_keeps, create_if_absent_present.
  - apply create_if_absent_present.
Qed.

(** C4. Install settles each manifest entry on its own.  Whatever becomes of
    the other entries (fetch rejected, error status, rejected write), install
    as a whole is fulfilled and reaches [skipWaiting], and every entry whose
    own fetch is fulfilled with an ok response and whose own write goes
    through is in its partition afterwards. *)
Theorem install_settles_entries_independently e w :
  open_fails e CACHE_HTML = false →
  open_fails e CACHE_ASSETS = false →
  (∀ p, p ∈ CORE_ASSETS → network e (new_Request (location e) p "reload") ≠ Pending) →
  ∃ w', install e w = (Fulfilled tt, w')
        ∧ skipWaitingCalled w' = true
        ∧ ∀ p fresh,
            p ∈ CORE_ASSETS →
            network e (new_Request (location e) p "reload") = Fulfilled fresh →
            ok fresh = true →
            put_fails e (precache_partition p) (resolve (location e) p) fresh = false →
            entries_match (partition w' (precache_partition p)) (resolve (location e) p)
            = Some fresh.
Proof.
  intros Hopen1 Hopen2 Hnet. eexists. split; [by apply install_run|].
  split; [done|].
  intros p fresh Hp Hfetch Hok Hput.
  destruct (resolve_manifest_NoDup (location e)) as [Hnd1 Hnd2].
  apply manifest_split in Hp. unfold precache_partition in *.
  destruct (existsb (String.eqb p) htmlList); unfold partition; cbn [caches].
  - rewrite lookup_alter_ne by done. rewrite lookup_alter_eq.
    destruct (create_if_absent_keeps (create_if_absent w CACHE_HTML) CACHE_ASSETS
                CACHE_HTML (create_if_absent_present w CACHE_HTML)) as [es ->].
    exact (fold_precached_stored e CACHE_HTML htmlList es p fresh Hnd1 Hp Hfetch Hok Hput).
  - rewrite lookup_alter_eq, lookup_alter_ne by done.
    destruct (create_if_absent_present (create_if_absent w CACHE_HTML) CACHE_ASSETS)
      as [es ->].
    exact (fold_precached_stored e CACHE_ASSETS assetList es p fresh Hnd2 Hp Hfetch Hok Hput).
Qed.

Lemma install_settles_entries_independently_witness :
  let e := flaky_env in
  let w := sample_worker ∅ in
  ∃ w', install e w = (Fulfilled tt, w')
        ∧ skipWaitingCalled w' = true
        ∧ network e (new_Request (location e) "./manifest.json" "reload") = Rejected
        ∧ entries_match (partition w' CACHE_HTML) (page "index.html")
          = Some (mkResponse 200 [] "home").
Proof.
  destruct (install_settles_entries_independently flaky_env (sample_worker ∅))
    as (w' & Hrun & Hskip & Hstored).
  - reflexivity.
  - reflexivity.
  - intros p _. simpl. destruct (endsWith _ ".html"); discriminate.
  - exists w'. split; [exact Hrun|]. split; [exact Hskip|]. split; [reflexivity|].
    apply (Hstored "./index.html" (mkResponse 200 [] "home")).
    + apply list_elem_of_In. simpl. right. left. reflexivity.
    + reflexivity.
    + reflexivity.
    + reflexivity.
Defined.

(** * Further properties of the listeners *)

(** ** trimCache: repetition and failure *)

Lemma trimCache_run e w name (c : Cache) maxEntries :
  open_fails e name = false →
  keys_fails e name = false →
  (∀ u, delete_fails e name u = false) →
  caches w !! name = Some c →
  NoDup (entries_keys c) →
  0 <= maxEntries →
  trimCache name maxEntries e w =
  (Fulfilled tt,
   set_caches w (<[name := drop (Z.to_nat (Z.of_nat (length c) - maxEntries)) c]>
                   (caches w))).
Proof.
  intros Hopen Hkeys Hdel Hc Hnd Hmax.
  unfold trimCache, bind, caches_open, cache_keys, create_if_absent, partition.
  rewrite Hopen, Hc, Hkeys. simpl. rewrite Hc. simpl.
  rewrite !entries_keys_length.
  destruct (Z.leb_spec (Z.of_nat (length c)) maxEntries) as [Hle|Hgt].
  - replace (Z.to_nat (Z.of_nat (length c) - maxEntries)) with 0%nat by lia.
    by rewrite drop_0, (insert_id _ _ _ Hc), set_caches_id.
  - pose proof (trim_loop_spec e w (caches w) name c
                  (Z.to_nat (Z.of_nat (length c) - maxEntries)) 0 Hdel Hnd) as Hloop.
    rewrite drop_0, (insert_id _ _ _ Hc), set_caches_id in Hloop.
    apply Hloop. lia.
Qed.

Lemma NoDup_entries_drop (c : Cache) n :
  NoDup (entries_keys c) → NoDup (entries_keys (drop n c)).
Proof.
  unfold entries_keys. rewrite <- (take_drop n c) at 1.
  rewrite map_app. by intros [_ [_ H]]%NoDup_app.
Qed.

(** X1. Trimming is idempotent: after one [trimCache] the partition holds at
    most [maxEntries] entries, and a second [trimCache] with the same bound
    changes nothing. *)
Theorem trimCache_idempotent e w name (c : Cache) maxEntries :
  open_fails e name = false →
  keys_fails e name = false →
  (∀ u, delete_fails e name u = false) →
  caches w !! name = Some c →
  NoDup (entries_keys c) →
  0 <= maxEntries →
  let w1 := snd (trimCache name maxEntries e w) in
  Z.of_nat (length (partition w1 name)) = Z.min (Z.of_nat (length c)) maxEntries
  ∧ trimCache name maxEntries e w1 = (Fulfilled tt, w1).
Proof.
  intros Hopen Hkeys Hdel Hc Hnd Hmax w1. subst w1.
  rewrite (trimCache_run e w name c maxEntries) by done. simpl.
  set (c1 := drop (Z.to_nat (Z.of_nat (length c) - maxEntries)) c).
  assert (Hlen : Z.of_nat (length c1) = Z.min (Z.of_nat (length c)) maxEntries).
  { unfold c1. rewrite length_drop. lia. }
  split.
  - by rewrite partition_set, lookup_insert_eq.
  - rewrite (trimCache_run e _ name c1 maxEntries); try done.
    + simpl. rewrite insert_insert_eq.
      replace (Z.to_nat (Z.of_nat (length c1) - maxEntries)) with 0%nat by lia.
      by rewrite drop_0.
    + simpl. apply lookup_insert_eq.
    + by apply NoDup_entries_drop.
Qed.

Lemma trimCache_idempotent_witness :
  let e := sample_env Rejected in
  let w := sample_worker {[ CACHE_ASSETS := three_entries ]} in
  let w1 := snd (trimCache CACHE_ASSETS 2 e w) in
  Z.of_nat (length (partition w1 CACHE_ASSETS)) = Z.min (Z.of_nat (length three_entries)) 2
  ∧ trimCache CACHE_ASSETS 2 e w1 = (Fulfilled tt, w1).
Proof.
  apply (trimCache_idempotent (sample_env Rejected)
           (sample_worker {[ CACHE_ASSETS := three_entries ]})
           CACHE_ASSETS three_entries 2).
  - reflexivity.
  - reflexivity.
  - reflexivity.
  - vm_compute. reflexivity.
  - apply (bool_decide_unpack _). vm_compute. reflexivity.
  - lia.
Defined.

Lemma trim_loop_prefix e w (m : gmap string (list (URL * Response))) name (c : Cache) n i :
  (∀ j u, (i ≤ j < i + n)%nat → entries_keys c !! j = Some u →
          delete_fails e name u = false) →
  NoDup (entries_keys c) →
  (i + n ≤ length c)%nat →
  trim_loop name (entries_keys c) i n e (set_caches w (<[name := drop i c]> m))
  = (Fulfilled tt, set_caches w (<[name := drop (i + n) c]> m)).
Proof.
  intros Hdel Hnd. revert i Hdel.
  induction n as [|n IH]; intros i Hdel Hlen; simpl.
  - by rewrite Nat.add_0_r.
  - destruct (lookup_lt_is_Some_2 (entries_keys c) i) as [k Hk].
    { rewrite entries_keys_length. lia. }
    unfold bind at 1. rewrite Hk. unfold cache_delete.
    rewrite (Hdel i k) by (done || lia). simpl.
    rewrite alter_insert_eq, (entries_delete_drop c i k Hnd Hk).
    rewrite set_caches_set, IH.
    + by replace (S i + n)%nat with (i + S n)%nat by lia.
    + intros j u Hj. apply Hdel. lia.
    + lia.
Qed.

Lemma trim_loop_app cache keys i a b e w :
  trim_loop cache keys i (a + b) e w =
  match trim_loop cache keys i a e w with
  | (Fulfilled _, w1) => trim_loop cache keys (i + a) b e w1
  | (Rejected, w1) => (Rejected, w1)
  | (Pending, w1) => (Pending, w1)
  end.
Proof.
  revert i w. induction a as [|a IH]; intros i w; simpl.
  - by rewrite Nat.add_0_r.
  - generalize (match keys !! i with
                | Some k => cache_delete cache k
                | None => base <~ self_location ;;
                          cache_delete cache (resolve base "undefined")
                end).
    intros t. unfold bind. destruct (t e w) as [[[]| |] w1]; [|done|done].
    rewrite IH. by replace (S i + a)%nat with (i + S a)%nat by lia.
Qed.

Lemma trim_loop_stops cache keys i n u e w :
  keys !! i = Some u →
  delete_fails e cache u = true →
  trim_loop cache keys i (S n) e w = (Rejected, w).
Proof.
  intros Hu Hfail. simpl. unfold bind. rewrite Hu. unfold cache_delete.
  by rewrite Hfail.
Qed.

(** X2. Trimming is not atomic.  When [cache.delete] is rejected for the key
    at position [j] of the ones to evict, [trimCache] is rejected having
    removed exactly the [j] oldest entries; the remaining entries, also
    those beyond the bound, stay, and no other partition is touched. *)
Theorem trimCache_rejected_delete e w name (c : Cache) maxEntries j u :
  open_fails e name = false →
  keys_fails e name = false →
  caches w !! name = Some c →
  NoDup (entries_keys c) →
  0 <= maxEntries →
  Z.of_nat j < Z.of_nat (length c) - maxEntries →
  entries_keys c !! j = Some u →
  delete_fails e name u = true →
  (∀ i u', (i < j)%nat → entries_keys c !! i = Some u' →
           delete_fails e name u' = false) →
  ∃ w', trimCache name maxEntries e w = (Rejected, w')
        ∧ partition w' name = drop j c
        ∧ (∀ n, n ≠ name → caches w' !! n = caches w !! n).
Proof.
  intros Hopen Hkeys Hc Hnd Hmax Hj Hu Hfail Hbefore.
  exists (set_caches w (<[name := drop j c]> (caches w))).
  split; [|split].
  - unfold trimCache, bind at 1 2, caches_open, cache_keys, create_if_absent, partition.
    rewrite Hopen, Hc, Hkeys. simpl. rewrite Hc. simpl.
    rewrite !entries_keys_length.
    destruct (Z.leb_spec (Z.of_nat (length c)) maxEntries) as [Hle|Hgt]; [lia|].
    set (k := Z.to_nat (Z.of_nat (length c) - maxEntries)).
    replace k with (j + S (k - j - 1))%nat by lia.
    rewrite trim_loop_app.
    pose proof (trim_loop_prefix e w (caches w) name c j 0) as Hloop.
    rewrite drop_0, (insert_id _ _ _ Hc), set_caches_id in Hloop.
    rewrite Hloop.
    + simpl. by apply (trim_loop_stops name (entries_keys c) j _ u).
    + intros i u' Hi. apply Hbefore. lia.
    + done.
    + unfold k in *. lia.
  - by rewrite partition_set, lookup_insert_eq.
  - intros n Hn. simpl. by rewrite lookup_insert_ne.
Qed.

Lemma trimCache_rejected_delete_witness :
  let e := delete_rejecting_env (page "b.js") in
  let w := sample_worker {[ CACHE_ASSETS := three_entries ]} in
  ∃ w', trimCache CACHE_ASSETS 0 e w = (Rejected, w')
        ∧ partition w' CACHE_ASSETS = drop 1 three_entries
        ∧ (∀ n, n ≠ CACHE_ASSETS → caches w' !! n = caches w !! n).
Proof.
  apply (trimCache_rejected_delete (delete_rejecting_env (page "b.js"))
           (sample_worker {[ CACHE_ASSETS := three_entries ]})
           CACHE_ASSETS three_entries 0 1 (page "b.js")).
  - reflexivity.
  - reflexivity.
  - vm_compute. reflexivity.
  - apply (bool_decide_unpack _). vm_compute. reflexivity.
  - lia.
  - simpl. lia.
  - reflexivity.
  - vm_compute. reflexivity.
  - intros i u' Hi Hk. destruct i as [|i]; [|lia].
    injection Hk as <-. vm_compute. reflexivity.
Defined.

(** ** Tasks that keep a property of the store *)

Section Keeps.
Variable P : Worker → Prop.

Lemma keeps_ret {A} (a : A) : keeps P (ret a).
Proof. by intros e w Hw. Qed.

Lemma keeps_bind {A B} (m : Task A) (k : A → Task B) :
  keeps P m → (∀ a, keeps P (k a)) → keeps P (bind m k).
Proof.
  intros Hm Hk e w Hw. unfold bind. specialize (Hm e w Hw).
  destruct (m e w) as [[a| |] w1]; [|done|done]. by apply Hk.
Qed.

Lemma keeps_try_catch {A} (m h : Task A) :
  keeps P m → keeps P h → keeps P (try_catch m h).
Proof.
  intros Hm Hh e w Hw. unfold try_catch. specialize (Hm e w Hw).
  destruct (m e w) as [[a| |] w1]; [done| |done]. by apply Hh.
Qed.

Lemma keeps_detach {A} (m : Task A) : keeps P m → keeps P (detach m).
Proof. intros Hm e w Hw. by apply Hm. Qed.

Lemma keeps_start {A} (m : Task A) : keeps P m → keeps P (start m).
Proof.
  intros Hm e w Hw. unfold start. specialize (Hm e w Hw).
  by destruct (m e w).
Qed.

Lemma keeps_await {A} (p : Outcome A) : keeps P (await p).
Proof. by intros e w Hw. Qed.

Lemma keeps_fetch req : keeps P (fetch req).
Proof. by intros e w Hw. Qed.

Lemma keeps_self_location : keeps P self_location.
Proof. by intros e w Hw. Qed.

Lemma keeps_run_all {A} (ts : list (Task A)) e w :
  Forall (keeps P) ts → P w → P (snd (run_all ts e w)).
Proof.
  intros Hts. revert w. induction Hts as [|t ts Ht Hts IH]; intros w Hw; [done|].
  simpl. specialize (Ht e w Hw). destruct (t e w) as [o w1].
  specialize (IH w1 Ht). by destruct (run_all ts e w1).
Qed.

Lemma keeps_allSettled {A} (ts : list (Task A)) :
  Forall (keeps P) ts → keeps P (allSettled ts).
Proof.
  intros Hts e w Hw. unfold allSettled.
  pose proof (keeps_run_all ts e w Hts Hw) as H. by destruct (run_all ts e w).
Qed.

Lemma keeps_all {A} (ts : list (Task A)) :
  Forall (keeps P) ts → keeps P (all ts).
Proof.
  intros Hts e w Hw. unfold all.
  pose proof (keeps_run_all ts e w Hts Hw) as H. by destruct (run_all ts e w).
Qed.
End Keeps.

(** ** What a fetch strategy may write *)

Lemma keeps_cache_match_any P c k : keeps P (cache_match c k).
Proof. intros e w Hw. unfold cache_match. by destruct (match_fails e c k). Qed.

Lemma keeps_cache_keys_any P c : keeps P (cache_keys c).
Proof. intros e w Hw. unfold cache_keys. by destruct (keys_fails e c). Qed.

Lemma keeps_bind_open P {B} name (k : string → Task B) :
  keeps P (caches_open name) → keeps P (k name) → keeps P (bind (caches_open name) k).
Proof.
  intros Hopen Hk e w Hw. specialize (Hopen e w Hw). unfold bind.
  unfold caches_open in *. destruct (open_fails e name); [done|]. by apply Hk.
Qed.

Section StrategyKeeps.
Variable P : Worker → Prop.
Variable req : Request.

Lemma keeps_trimCache_under name maxEntries :
  keeps P (caches_open name) →
  (∀ k, keeps P (cache_delete name k)) →
  keeps P (trimCache name maxEntries).
Proof.
  intros Hopen Hdel. unfold trimCache. apply keeps_bind_open; [done|].
  apply keeps_bind; [apply keeps_cache_keys_any|]. intros keys.
  destruct (Z.of_nat (length keys) <=? maxEntries); [apply keeps_ret|].
  generalize (Z.to_nat (Z.of_nat (length keys) - maxEntries)) 0%nat.
  intros n. induction n as [|n IH]; intros i; simpl; [apply keeps_ret|].
  apply keeps_bind; [|intros _; apply IH].
  destruct (keys !! i); [apply Hdel|].
  apply keeps_bind; [apply keeps_self_location|]. intros base. apply Hdel.
Qed.

Lemma keeps_respond_html_under :
  keeps P (caches_open CACHE_HTML) →
  (∀ r, keeps P (cache_put CACHE_HTML (url req) r)) →
  keeps P (respond_html req).
Proof.
  intros Hopen Hput. unfold respond_html. apply keeps_bind_open; [done|].
  apply keeps_try_catch.
  - apply keeps_bind; [apply keeps_fetch|]. intros fresh.
    apply keeps_bind; [|intros _; apply keeps_ret].
    destruct (ok fresh); [|apply keeps_ret]. apply keeps_detach, Hput.
  - apply keeps_bind; [apply keeps_cache_match_any|].
    intros [cached|]; [apply keeps_ret|].
    apply keeps_bind; [apply keeps_self_location|]. intros base.
    apply keeps_bind; [apply keeps_cache_match_any|].
    intros [fallback|]; apply keeps_ret.
Qed.

Lemma keeps_respond_other_under :
  keeps P (caches_open CACHE_ASSETS) →
  (∀ r, keeps P (cache_put CACHE_ASSETS (url req) r)) →
  keeps P (respond_other req).
Proof.
  intros Hopen Hput. unfold respond_other. apply keeps_bind_open; [done|].
  apply keeps_try_catch.
  - apply keeps_bind; [apply keeps_fetch|]. intros fresh.
    apply keeps_bind; [|intros _; apply keeps_ret].
    destruct (ok fresh); [|apply keeps_ret]. apply keeps_detach, Hput.
  - apply keeps_bind; [apply keeps_cache_match_any|].
    intros [cached|]; apply keeps_ret.
Qed.

Lemma keeps_respond_asset_under :
  keeps P (caches_open CACHE_ASSETS) →
  (∀ r, keeps P (cache_put CACHE_ASSETS (url req) r)) →
  (∀ k, keeps P (cache_delete CACHE_ASSETS k)) →
  keeps P (respond_asset req).
Proof.
  intros Hopen Hput Hdel. unfold respond_asset. apply keeps_bind_open; [done|].
  apply keeps_bind; [apply keeps_cache_match_any|]. intros cached.
  apply keeps_bind.
  - apply keeps_start. unfold revalidate. apply keeps_try_catch; [|apply keeps_ret].
    apply keeps_bind; [apply keeps_fetch|]. intros fresh.
    apply keeps_bind; [|intros _; apply keeps_ret].
    destruct (ok fresh); [|apply keeps_ret].
    apply keeps_bind; [apply keeps_detach, Hput|]. intros _.
    by apply keeps_detach, keeps_trimCache_under.
  - intros p. destruct cached; [apply keeps_ret|].
    apply keeps_bind; [apply keeps_await|]. intros [f|]; apply keeps_ret.
Qed.
End StrategyKeeps.

Lemma create_if_absent_lookup_ne w name n :
  n ≠ name → caches (create_if_absent w name) !! n = caches w !! n.
Proof.
  intros Hn. unfold create_if_absent. destruct (caches w !! name); [done|].
  simpl. by rewrite lookup_insert_ne.
Qed.

Section Frame.
Variable w0 : Worker.
Variable n : string.

Lemma untouched_open c : n ≠ c → keeps (untouched w0 n) (caches_open c).
Proof.
  intros Hn e w Hw. unfold untouched, caches_open in *.
  destruct (open_fails e c); [done|]. simpl.
  by rewrite create_if_absent_lookup_ne.
Qed.

Lemma untouched_put c k r : n ≠ c → keeps (untouched w0 n) (cache_put c k r).
Proof.
  intros Hn e w Hw. unfold untouched, cache_put in *.
  destruct (put_fails e c k r); [done|]. simpl. by rewrite lookup_alter_ne.
Qed.

Lemma untouched_delete c k : n ≠ c → keeps (untouched w0 n) (cache_delete c k).
Proof.
  intros Hn e w Hw. unfold untouched, cache_delete in *.
  destruct (delete_fails e c k); [done|]. simpl. by rewrite lookup_alter_ne.
Qed.

Lemma strategy_untouched c req e :
  n ≠ partition_of c → caches (snd (strategy c req e w0)) !! n = caches w0 !! n.
Proof.
  intros Hn.
  assert (H : keeps (untouched w0 n) (strategy c req)).
  { destruct c; simpl in *.
    - apply keeps_respond_html_under; [by apply untouched_open|].
      intros r. by apply untouched_put.
    - apply keeps_respond_asset_under; [by apply untouched_open| |].
      + intros r. by apply untouched_put.
      + intros k. by apply untouched_delete.
    - apply keeps_respond_other_under; [by apply untouched_open|].
      intros r. by apply untouched_put. }
  by apply (H e w0).
Qed.
End Frame.

Section KeyFrame.
Variable w0 : Worker.
Variable c : string.
Variable k : URL.

Lemma same_entry_open name : keeps (same_entry w0 c k) (caches_open name).
Proof.
  intros e w Hw. unfold same_entry, caches_open in *.
  destruct (open_fails e name); [done|]. simpl.
  by rewrite partition_create_if_absent.
Qed.

Lemma same_entry_put name k' r :
  k' ≠ k → keeps (same_entry w0 c k) (cache_put name k' r).
Proof.
  intros Hk e w Hw. unfold same_entry, cache_put in *.
  destruct (put_fails e name k' r); [done|]. simpl. rewrite <- Hw.
  unfold partition. simpl.
  destruct (decide (name = c)) as [->|Hne]; [|by rewrite lookup_alter_ne].
  rewrite lookup_alter_eq. destruct (caches w !! c) as [es|]; [|done]. simpl.
  rewrite entries_match_put. by destruct (decide (k' = k)).
Qed.
End KeyFrame.

(** X4. A fetch strategy writes only where it is meant to.  Whatever the
    network answers and whichever storage operations are rejected, every
    partition other than the one of the request's category is left exactly
    as it was; and the document and other strategies leave every entry of
    their own partition that is stored under another key than the
    request's as it was. *)
Theorem strategy_writes_own_partition c req e w :
  (∀ n, n ≠ partition_of c → caches (snd (strategy c req e w)) !! n = caches w !! n)
  ∧ (c ≠ Asset →
     ∀ k, k ≠ url req →
          entries_match (partition (snd (strategy c req e w)) (partition_of c)) k
          = entries_match (partition w (partition_of c)) k).
Proof.
  split.
  - intros n Hn. by apply strategy_untouched.
  - intros Hc k Hk.
    assert (H : keeps (same_entry w (partition_of c) k) (strategy c req)).
    { destruct c; simpl; [|done|].
      - apply keeps_respond_html_under; [apply same_entry_open|].
        intros r. by apply same_entry_put.
      - apply keeps_respond_other_under; [apply same_entry_open|].
        intros r. by apply same_entry_put. }
    by apply (H e w).
Qed.

Lemma strategy_writes_own_partition_witness :
  let e := sample_env (Fulfilled (sample_response 200 "fresh")) in
  let w := sample_worker store_with_old_generation in
  let req := navigation "about.html" in
  caches (snd (strategy Document req e w)) !! CACHE_ASSETS = caches w !! CACHE_ASSETS
  ∧ entries_match (partition (snd (strategy Document req e w)) CACHE_HTML)
      (page "index.html")
    = entries_match (partition w CACHE_HTML) (page "index.html").
Proof.
  destruct (strategy_writes_own_partition Document (navigation "about.html")
              (sample_env (Fulfilled (sample_response 200 "fresh")))
              (sample_worker store_with_old_generation)) as [Hother Hkey].
  split.
  - apply Hother. discriminate.
  - apply Hkey; discriminate.
Defined.

(** ** Stale-while-revalidate over two requests *)

Lemma create_if_absent_lookup w name :
  caches (create_if_absent w name) !! name = Some (partition w name).
Proof.
  unfold create_if_absent, partition.
  destruct (caches w !! name) eqn:Hn; simpl; [done|apply lookup_insert_eq].
Qed.

(** With the write landing before the keys are read, the asset strategy is
    the one the fetch listener was embedded with. *)
Lemma respond_asset_at_BeforeKeys req :
  respond_asset_at BeforeKeys req = respond_asset req.
Proof. reflexivity. Qed.

Lemma revalidate_at_outcome s cache req e w :
  fst (revalidate_at s cache req e w) =
  match network e req with
  | Fulfilled fresh => Fulfilled (Some fresh)
  | Rejected => Fulfilled None
  | Pending => Pending
  end.
Proof.
  unfold revalidate_at, try_catch, bind at 1, fetch.
  destruct (network e req) as [fresh| |]; [|done|done].
  unfold bind at 1. destruct (ok fresh); [|done].
  by destruct s.
Qed.

(** Where the write lands has no influence on the answer. *)
Lemma respond_asset_at_outcome s e w req :
  fst (respond_asset_at s req e w) = fst (respond_asset req e w).
Proof.
  rewrite respond_asset_outcome.
  unfold respond_asset_at, bind, caches_open, cache_match, start, await, ret.
  destruct (open_fails e CACHE_ASSETS); [done|].
  destruct (match_fails e CACHE_ASSETS (url req)); [done|].
  rewrite partition_create_if_absent.
  pose proof (revalidate_at_outcome s CACHE_ASSETS req e (create_if_absent w CACHE_ASSETS))
    as Hrev.
  destruct (revalidate_at s CACHE_ASSETS req e _) as [o w']. simpl in Hrev. subst o.
  destruct (entries_match (partition w CACHE_ASSETS) (url req)) as [c|]; [done|].
  by destruct (network e req).
Qed.

Lemma respond_asset_at_store s e w req fresh :
  open_fails e CACHE_ASSETS = false →
  match_fails e CACHE_ASSETS (url req) = false →
  network e req = Fulfilled fresh →
  ok fresh = true →
  snd (respond_asset_at s req e w) =
  snd (store_and_trim s CACHE_ASSETS (url req) fresh e (create_if_absent w CACHE_ASSETS)).
Proof.
  intros Hopen Hmatch Hnet Hok.
  unfold respond_asset_at, bind at 1 2 3, caches_open, cache_match, start.
  rewrite Hopen, Hmatch.
  assert (Hrev : snd (revalidate_at s CACHE_ASSETS req e (create_if_absent w CACHE_ASSETS)) =
                 snd (store_and_trim s CACHE_ASSETS (url req) fresh e
                        (create_if_absent w CACHE_ASSETS))).
  { unfold revalidate_at, try_catch, bind at 1, fetch. rewrite Hnet.
    unfold bind at 1. rewrite Hok.
    assert (Hful : fst (store_and_trim s CACHE_ASSETS (url req) fresh e
                          (create_if_absent w CACHE_ASSETS)) = Fulfilled tt)
      by (by destruct s).
    destruct (store_and_trim s CACHE_ASSETS (url req) fresh e _) as [o w1].
    simpl in Hful. by subst o. }
  destruct (revalidate_at s CACHE_ASSETS req e _) as [o w1]. simpl in Hrev. subst w1.
  destruct (entries_match _ (url req)); [done|].
  unfold bind, await, ret. by destruct o as [[?|]| |].
Qed.

Lemma store_and_trim_BeforeKeys cache k r e w :
  snd (store_and_trim BeforeKeys cache k r e w) =
  snd (trimCache CACHE_ASSETS MAX_ASSET_ENTRIES e (snd (cache_put cache k r e w))).
Proof. reflexivity. Qed.

(** With nothing to interleave, the trimming split at its [j]-th deletion is
    [trimCache]. *)
Lemma trimCache_racing_ret j name maxEntries e w :
  trimCache_racing (ret tt) j name maxEntries e w = trimCache name maxEntries e w.
Proof.
  assert (Hsplit : ∀ keys d w0,
    trim_loop name keys 0 d e w0 =
    match trim_loop name keys 0 (Nat.min j d) e w0 with
    | (Fulfilled _, w1) => trim_loop name keys (Nat.min j d) (d - Nat.min j d) e w1
    | (Rejected, w1) => (Rejected, w1)
    | (Pending, w1) => (Pending, w1)
    end).
  { intros keys d w0.
    replace d with (Nat.min j d + (d - Nat.min j d))%nat at 1 by lia.
    by rewrite trim_loop_app. }
  unfold trimCache_racing, trimCache_upto, trimCache, bind, caches_open, cache_keys.
  destruct (open_fails e name); [done|].
  destruct (keys_fails e name); [done|].
  destruct (Z.of_nat (length (entries_keys (partition (create_if_absent w name) name)))
            <=? maxEntries).
  - rewrite Nat.min_0_r. done.
  - rewrite (Hsplit _ (Z.to_nat _)).
    by destruct (trim_loop name _ 0 (Nat.min j _) e _) as [[[]| |] w1].
Qed.

(** On a partition within its bound the trimming deletes nothing, so a write
    that lands after the keys are read is all that happens. *)
Lemma trimCache_racing_within_bound write j e w name (c : Cache) maxEntries :
  open_fails e name = false →
  caches w !! name = Some c →
  Z.of_nat (length c) <= maxEntries →
  snd (trimCache_racing write j name maxEntries e w) = snd (write e w).
Proof.
  intros Hopen Hc Hlen.
  unfold trimCache_racing, trimCache_upto, bind at 1, caches_open. rewrite Hopen.
  rewrite create_if_absent_idemp by (by eexists).
  unfold bind at 1, cache_keys. destruct (keys_fails e name); [done|].
  assert (Hpart : partition w name = c) by (unfold partition; by rewrite Hc).
  rewrite Hpart, entries_keys_length.
  destruct (Z.leb_spec (Z.of_nat (length c)) maxEntries); [|lia].
  rewrite Nat.min_0_r. simpl. unfold bind, ret. simpl. done.
Qed.

Lemma same_entry_delete w0 c k name k' :
  k' ≠ k → keeps (same_entry w0 c k) (cache_delete name k').
Proof.
  intros Hk e w Hw. unfold same_entry, cache_delete in *.
  destruct (delete_fails e name k'); [done|]. simpl. rewrite <- Hw.
  unfold partition. simpl.
  destruct (decide (name = c)) as [->|Hne]; [|by rewrite lookup_alter_ne].
  rewrite lookup_alter_eq. destruct (caches w !! c) as [es|]; [|done]. simpl.
  rewrite entries_match_delete. by destruct (decide (k' = k)).
Qed.

Lemma trim_loop_keeps_entry w0 name keys k0 n i :
  (∀ j, (i ≤ j < i + n)%nat → ∃ u, keys !! j = Some u ∧ u ≠ k0) →
  keeps (same_entry w0 name k0) (trim_loop name keys i n).
Proof.
  revert i. induction n as [|n IH]; intros i Hkeys; simpl; [apply keeps_ret|].
  apply keeps_bind.
  - destruct (Hkeys i) as (u & -> & Hu); [lia|]. by apply same_entry_delete.
  - intros _. apply IH. intros j Hj. apply Hkeys. lia.
Qed.

Lemma entries_match_youngest (es : Cache) k r :
  k ∉ entries_keys es → entries_match (es ++ [(k, r)])%list k = Some r.
Proof.
  intros Hk. rewrite entries_match_app.
  assert (Hnone : entries_match es k = None).
  { induction es as [|[k' r'] es IH]; simpl; [done|].
    simpl in Hk. apply not_elem_of_cons in Hk as [Hne Hk].
    destruct (decide (k' = k)); [congruence|by apply IH]. }
  rewrite Hnone. simpl. by destruct (decide (k = k)).
Qed.

(** The youngest entry of a partition survives [trimCache] with a bound of at
    least one, also when the trim itself goes wrong. *)
Lemma trimCache_keeps_youngest e w name (es : Cache) k r maxEntries :
  caches w !! name = Some (es ++ [(k, r)])%list →
  k ∉ entries_keys es →
  1 <= maxEntries →
  entries_match (partition (snd (trimCache name maxEntries e w)) name) k = Some r.
Proof.
  intros Hw Hk Hmax.
  assert (Hpart : partition w name = (es ++ [(k, r)])%list).
  { unfold partition. by rewrite Hw. }
  assert (Hstart : entries_match (partition w name) k = Some r).
  { rewrite Hpart. by apply entries_match_youngest. }
  rewrite <- Hstart.
  unfold trimCache, bind at 1, caches_open.
  destruct (open_fails e name); [done|].
  replace (create_if_absent w name) with w
    by (unfold create_if_absent; by rewrite Hw).
  unfold bind at 1, cache_keys. destruct (keys_fails e name); [done|].
  destruct (Z.leb_spec (Z.of_nat (length (entries_keys (partition w name)))) maxEntries);
    [done|].
  apply (trim_loop_keeps_entry w name); [|done].
  intros j Hj. rewrite Hpart in *.
  rewrite entries_keys_length, length_app in *. simpl in *.
  destruct (lookup_lt_is_Some_2 (entries_keys es) j) as [u Hu].
  { rewrite entries_keys_length. lia. }
  exists u. split.
  - unfold entries_keys in *. rewrite map_app. by apply lookup_app_l_Some.
  - intros ->. apply Hk. by apply list_elem_of_lookup_2 in Hu.
Qed.

Lemma entries_keys_delete_absent (c : Cache) k : k ∉ entries_keys (entries_delete c k).
Proof. rewrite entries_keys_delete. tauto. Qed.

(** X5. Stale-while-revalidate over two requests, on an asset partition
    that is within its bound.  When [caches.open] and [cache.match] are not
    rejected, the fetch of an asset request is fulfilled with an ok response
    and [cache.put] takes it, then, wherever the write lands in the
    trimming and however the trimming ends, the response to this request is
    the entry that was cached (the fresh response if none was), the fresh
    response is stored under the request's key, and the next request for
    the asset is answered with the fresh response whatever the network does
    then. *)
Theorem asset_revalidation_refreshes s s2 e e2 w req fresh :
  open_fails e CACHE_ASSETS = false →
  match_fails e CACHE_ASSETS (url req) = false →
  network e req = Fulfilled fresh →
  ok fresh = true →
  put_fails e CACHE_ASSETS (url req) fresh = false →
  Z.of_nat (length (partition w CACHE_ASSETS)) <= MAX_ASSET_ENTRIES →
  open_fails e2 CACHE_ASSETS = false →
  match_fails e2 CACHE_ASSETS (url req) = false →
  let w1 := snd (respond_asset_at s req e w) in
  fst (respond_asset_at s req e w)
  = Fulfilled (default fresh (entries_match (partition w CACHE_ASSETS) (url req)))
  ∧ entries_match (partition w1 CACHE_ASSETS) (url req) = Some fresh
  ∧ fst (respond_asset_at s2 req e2 w1) = Fulfilled fresh.
Proof.
  intros Hopen Hmatch Hnet Hok Hput Hlen Hopen2 Hmatch2 w1.
  assert (Hstored : entries_match (partition w1 CACHE_ASSETS) (url req) = Some fresh).
  { unfold w1. rewrite (respond_asset_at_store s e w req fresh) by done.
    destruct s as [|j].
    - rewrite store_and_trim_BeforeKeys. unfold cache_put. rewrite Hput. simpl.
      apply (trimCache_keeps_youngest e _ CACHE_ASSETS
               (entries_delete (partition w CACHE_ASSETS) (url req))).
      + simpl. by rewrite lookup_alter_eq, create_if_absent_lookup.
      + apply entries_keys_delete_absent.
      + unfold MAX_ASSET_ENTRIES. lia.
    - unfold store_and_trim, detach. cbn [snd].
      rewrite (trimCache_racing_within_bound _ j e _ CACHE_ASSETS
                 (partition w CACHE_ASSETS) MAX_ASSET_ENTRIES Hopen
                 (create_if_absent_lookup w CACHE_ASSETS) Hlen).
      unfold cache_put. rewrite Hput. cbn [snd].
      rewrite partition_alter by apply create_if_absent_present.
      destruct (decide (CACHE_ASSETS = CACHE_ASSETS)); [|done].
      rewrite entries_match_put. by destruct (decide (url req = url req)). }
  split; [|split; [done|]].
  - rewrite respond_asset_at_outcome, respond_asset_outcome, Hopen, Hmatch, Hnet.
    destruct (entries_match (partition w CACHE_ASSETS) (url req)); reflexivity.
  - by rewrite respond_asset_at_outcome, respond_asset_outcome, Hopen2, Hmatch2, Hstored.
Qed.

Lemma asset_revalidation_refreshes_witness :
  let fresh := sample_response 200 "new" in
  let e := sample_env (Fulfilled fresh) in
  let e2 := sample_env Rejected in
  let w := sample_worker {[ CACHE_ASSETS := three_entries ]} in
  let req := subresource "b.js" "script" in
  let w1 := snd (respond_asset_at (AfterDeletions 0) req e w) in
  fst (respond_asset_at (AfterDeletions 0) req e w)
  = Fulfilled (default fresh (entries_match (partition w CACHE_ASSETS) (url req)))
  ∧ entries_match (partition w1 CACHE_ASSETS) (url req) = Some fresh
  ∧ fst (respond_asset_at BeforeKeys req e2 w1) = Fulfilled fresh.
Proof.
  apply (asset_revalidation_refreshes (AfterDeletions 0) BeforeKeys
           (sample_env (Fulfilled (sample_response 200 "new")))
           (sample_env Rejected)
           (sample_worker {[ CACHE_ASSETS := three_entries ]})
           (subresource "b.js" "script")); try reflexivity.
  vm_compute. discriminate.
Defined.

(** ** How large the asset partition gets *)

Lemma entries_delete_length (c : Cache) k :
  NoDup (entries_keys c) → k ∈ entries_keys c →
  S (length (entries_delete c k)) = length c.
Proof.
  induction c as [|[k0 r] c IH]; simpl; [by intros _ ?%elem_of_nil|].
  intros [Hk0 Hc]%NoDup_cons Hk.
  destruct (decide (k0 = k)) as [->|Hne].
  - by rewrite entries_delete_absent.
  - simpl. f_equal. apply IH; [done|].
    apply elem_of_cons in Hk as [->|Hk]; done.
Qed.

Lemma entries_put_length (c : Cache) k r :
  (length (entries_put c k r) ≤ S (length c))%nat.
Proof.
  unfold entries_put. rewrite length_app. simpl.
  assert (length (entries_delete c k) ≤ length c)%nat; [|lia].
  induction c as [|[k0 r0] c IH]; simpl; [lia|].
  destruct (decide (k0 = k)); simpl; lia.
Qed.

(** Deletions of distinct keys that are all stored remove one entry each. *)
Lemma trim_loop_length e name keys n : ∀ w i (es : Cache),
  (∀ u, delete_fails e name u = false) →
  NoDup keys →
  caches w !! name = Some es →
  NoDup (entries_keys es) →
  (∀ j, (i ≤ j < i + n)%nat → ∃ u, keys !! j = Some u ∧ u ∈ entries_keys es) →
  (length (partition (snd (trim_loop name keys i n e w)) name) + n)%nat = length es.
Proof.
  induction n as [|n IH]; intros w i es Hdel Hkeys Hw Hnd Hin; simpl.
  - unfold partition. rewrite Hw. simpl. lia.
  - destruct (Hin i) as (u & Hu & Hues); [lia|].
    unfold bind at 1. rewrite Hu. unfold cache_delete. rewrite Hdel.
    pose proof (entries_delete_length es u Hnd Hues) as Hlen.
    pose proof (IH (set_caches w (alter (fun es => entries_delete es u) name (caches w)))
                  (S i) (entries_delete es u) Hdel Hkeys) as Hrest.
    rewrite Nat.add_succ_r, Hrest; [done| | |].
    + simpl. by rewrite lookup_alter_eq, Hw.
    + by apply entries_delete_NoDup.
    + intros j Hj. destruct (Hin j) as (u' & Hu' & Hues'); [lia|].
      exists u'. split; [done|]. apply entries_keys_delete. split; [|done].
      intros ->. assert (j = i); [|lia].
      by apply (NoDup_lookup keys j i u).
Qed.

Lemma trimCache_upto_run j e w name (c : Cache) maxEntries :
  open_fails e name = false →
  keys_fails e name = false →
  (∀ u, delete_fails e name u = false) →
  caches w !! name = Some c →
  NoDup (entries_keys c) →
  0 <= maxEntries →
  let deleteCount := Z.to_nat (Z.of_nat (length c) - maxEntries) in
  trimCache_upto j name maxEntries e w =
  (Fulfilled (name, entries_keys c, Nat.min j deleteCount,
              (deleteCount - Nat.min j deleteCount)%nat),
   set_caches w (<[name := drop (Nat.min j deleteCount) c]> (caches w))).
Proof.
  intros Hopen Hkeys Hdel Hc Hnd Hmax d.
  unfold trimCache_upto, bind at 1, caches_open. rewrite Hopen.
  rewrite create_if_absent_idemp by (by eexists).
  unfold bind at 1, cache_keys. rewrite Hkeys.
  assert (Hpart : partition w name = c) by (unfold partition; by rewrite Hc).
  rewrite Hpart, entries_keys_length.
  assert (Hd : (if Z.of_nat (length c) <=? maxEntries then 0%nat
                else Z.to_nat (Z.of_nat (length c) - maxEntries)) = d).
  { unfold d. destruct (Z.leb_spec (Z.of_nat (length c)) maxEntries); lia. }
  rewrite Hd.
  pose proof (trim_loop_spec e w (caches w) name c (Nat.min j d) 0 Hdel Hnd) as Hloop.
  rewrite drop_0, (insert_id _ _ _ Hc), set_caches_id in Hloop.
  unfold bind at 1. rewrite Hloop by (unfold d; lia). done.
Qed.

(** The size of the partition once the write and the trimming are both
    done, the write having landed after the keys were read. *)
Lemma trimCache_racing_length j e w (c : Cache) k r :
  open_fails e CACHE_ASSETS = false →
  keys_fails e CACHE_ASSETS = false →
  (∀ u, delete_fails e CACHE_ASSETS u = false) →
  put_fails e CACHE_ASSETS k r = false →
  caches w !! CACHE_ASSETS = Some c →
  NoDup (entries_keys c) →
  Z.of_nat (length (partition
              (snd (trimCache_racing (cache_put CACHE_ASSETS k r) j
                      CACHE_ASSETS MAX_ASSET_ENTRIES e w)) CACHE_ASSETS))
  <= MAX_ASSET_ENTRIES + 1.
Proof.
  intros Hopen Hkeys Hdel Hput Hc Hnd.
  unfold trimCache_racing.
  rewrite (trimCache_upto_run j e w CACHE_ASSETS c MAX_ASSET_ENTRIES)
    by (try done; unfold MAX_ASSET_ENTRIES; lia).
  cbv zeta.
  set (d := Z.to_nat (Z.of_nat (length c) - MAX_ASSET_ENTRIES)).
  set (j' := Nat.min j d).
  assert (Hd : (d ≤ length c)%nat) by (unfold d, MAX_ASSET_ENTRIES; lia).
  unfold cache_put at 1. rewrite Hput. cbn [snd].
  rewrite set_caches_set. cbn [caches set_caches].
  rewrite alter_insert_eq.
  assert (Hlen : (length (partition
                     (snd (trim_loop CACHE_ASSETS (entries_keys c) j' (d - j') e
                        (set_caches w (<[CACHE_ASSETS := entries_put (drop j' c) k r]>
                                         (caches w))))) CACHE_ASSETS) + (d - j'))%nat
                 = length (entries_put (drop j' c) k r));
    [apply (trim_loop_length e CACHE_ASSETS (entries_keys c) (d - j')); try done|].
  4:{ pose proof (entries_put_length (drop j' c) k r) as Hp.
      rewrite length_drop in Hp. unfold j', d, MAX_ASSET_ENTRIES in *. lia. }
  - simpl. by rewrite lookup_insert_eq.
  - apply entries_put_NoDup. by apply NoDup_entries_drop.
  - intros i Hi.
    destruct (lookup_lt_is_Some_2 (entries_keys c) i) as [u Hu].
    { rewrite entries_keys_length. unfold j' in *. lia. }
    exists u. split; [done|].
    unfold entries_put, entries_keys. rewrite map_app. apply elem_of_app.
    destruct (decide (u = k)) as [->|Hne]; [right; simpl; apply list_elem_of_here|].
    left. apply entries_keys_delete. split; [done|].
    unfold entries_keys. rewrite <- skipn_map.
    apply list_elem_of_lookup. exists (i - j')%nat.
    rewrite lookup_drop. by replace (j' + (i - j'))%nat with i by lia.
Qed.

(** X6. How large the asset partition gets.  After an asset request whose
    fetch is fulfilled with an ok response that [cache.put] takes, on a
    storage that rejects nothing and whose keys are distinct: when the write
    lands before the trimming reads the keys, the partition is the youngest
    MAX_ASSET_ENTRIES entries of what was stored, the fresh response last;
    when it lands later, a partition that was within the bound is not
    trimmed at all, so that one that was full ends with one entry more than
    the bound; and wherever the write lands, the partition ends with at most
    MAX_ASSET_ENTRIES + 1 entries, however many it held before. *)
Theorem asset_partition_bounded s e w req fresh :
  open_fails e CACHE_ASSETS = false →
  match_fails e CACHE_ASSETS (url req) = false →
  keys_fails e CACHE_ASSETS = false →
  (∀ u, delete_fails e CACHE_ASSETS u = false) →
  put_fails e CACHE_ASSETS (url req) fresh = false →
  network e req = Fulfilled fresh →
  ok fresh = true →
  NoDup (entries_keys (partition w CACHE_ASSETS)) →
  let before := partition w CACHE_ASSETS in
  let stored := entries_put before (url req) fresh in
  let after := partition (snd (respond_asset_at s req e w)) CACHE_ASSETS in
  (s = BeforeKeys →
   after = drop (Z.to_nat (Z.of_nat (length stored) - MAX_ASSET_ENTRIES)) stored
   ∧ Z.of_nat (length after) <= MAX_ASSET_ENTRIES)
  ∧ (s ≠ BeforeKeys →
     Z.of_nat (length before) <= MAX_ASSET_ENTRIES →
     after = stored)
  ∧ (s ≠ BeforeKeys →
     Z.of_nat (length before) = MAX_ASSET_ENTRIES →
     url req ∉ entries_keys before →
     Z.of_nat (length after) = MAX_ASSET_ENTRIES + 1)
  ∧ Z.of_nat (length after) <= MAX_ASSET_ENTRIES + 1.
Proof.
  intros Hopen Hmatch Hkeys Hdel Hput Hnet Hok Hnd before stored after.
  assert (Hafter : after = partition
            (snd (store_and_trim s CACHE_ASSETS (url req) fresh e
                    (create_if_absent w CACHE_ASSETS))) CACHE_ASSETS).
  { unfold after. by rewrite (respond_asset_at_store s e w req fresh). }
  assert (Hfirst : s = BeforeKeys →
            after = drop (Z.to_nat (Z.of_nat (length stored) - MAX_ASSET_ENTRIES)) stored).
  { intros ->. rewrite Hafter, store_and_trim_BeforeKeys.
    unfold cache_put. rewrite Hput. cbn [snd].
    rewrite (trimCache_run e _ CACHE_ASSETS stored MAX_ASSET_ENTRIES); try done.
    - cbn [snd]. by rewrite partition_set, lookup_insert_eq.
    - cbn [caches set_caches]. by rewrite lookup_alter_eq, create_if_absent_lookup.
    - by apply entries_put_NoDup. }
  assert (Hlater : s ≠ BeforeKeys →
            Z.of_nat (length before) <= MAX_ASSET_ENTRIES → after = stored).
  { intros Hs Hlen. destruct s as [|j]; [done|].
    rewrite Hafter. unfold store_and_trim, detach. cbn [snd].
    rewrite (trimCache_racing_within_bound _ j e _ CACHE_ASSETS before
               MAX_ASSET_ENTRIES Hopen (create_if_absent_lookup w CACHE_ASSETS) Hlen).
    unfold cache_put. rewrite Hput. cbn [snd].
    rewrite partition_alter by apply create_if_absent_present.
    destruct (decide (CACHE_ASSETS = CACHE_ASSETS)); [|done].
    by rewrite partition_create_if_absent. }
  split; [|split; [|split]].
  - intros Hs. split; [by apply Hfirst|].
    rewrite (Hfirst Hs), length_drop. unfold MAX_ASSET_ENTRIES. lia.
  - done.
  - intros Hs Hlen Hkey. rewrite Hlater by (done || lia).
    unfold stored, entries_put. rewrite entries_delete_absent by done.
    rewrite length_app. simpl. fold before. lia.
  - destruct s as [|j].
    + rewrite Hfirst by done. rewrite length_drop. unfold MAX_ASSET_ENTRIES. lia.
    + rewrite Hafter. unfold store_and_trim, detach. cbn [snd].
      exact (trimCache_racing_length j e (create_if_absent w CACHE_ASSETS)
               before (url req) fresh Hopen Hkeys Hdel Hput
               (create_if_absent_lookup w CACHE_ASSETS) Hnd).
Qed.

Lemma asset_partition_bounded_witness :
  let fresh := sample_response 200 "new" in
  let e := sample_env (Fulfilled fresh) in
  let w := sample_worker {[ CACHE_ASSETS := numbered_entries 120 ]} in
  let req := subresource "d.woff2" "font" in
  length (partition w CACHE_ASSETS) = 120%nat
  ∧ length (partition (snd (respond_asset_at BeforeKeys req e w)) CACHE_ASSETS) = 120%nat
  ∧ Z.of_nat (length (partition (snd (respond_asset_at (AfterDeletions 0) req e w))
                        CACHE_ASSETS)) = MAX_ASSET_ENTRIES + 1.
Proof.
  assert (Hnd : NoDup (entries_keys
                  (partition (sample_worker {[ CACHE_ASSETS := numbered_entries 120 ]})
                     CACHE_ASSETS))).
  { apply (bool_decide_unpack _). vm_compute. reflexivity. }
  split; [vm_compute; reflexivity|]. split.
  - pose proof (asset_partition_bounded BeforeKeys
                  (sample_env (Fulfilled (sample_response 200 "new")))
                  (sample_worker {[ CACHE_ASSETS := numbered_entries 120 ]})
                  (subresource "d.woff2" "font") (sample_response 200 "new")
                  eq_refl eq_refl eq_refl (fun _ => eq_refl) eq_refl eq_refl eq_refl Hnd)
      as (Hfirst & _).
    destruct (Hfirst eq_refl) as [Hafter _].
    rewrite Hafter. vm_compute. reflexivity.
  - pose proof (asset_partition_bounded (AfterDeletions 0)
                  (sample_env (Fulfilled (sample_response 200 "new")))
                  (sample_worker {[ CACHE_ASSETS := numbered_entries 120 ]})
                  (subresource "d.woff2" "font") (sample_response 200 "new")
                  eq_refl eq_refl eq_refl (fun _ => eq_refl) eq_refl eq_refl eq_refl Hnd)
      as (_ & _ & Hfull & _).
    apply Hfull.
    + discriminate.
    + vm_compute. reflexivity.
    + apply (bool_decide_unpack _). vm_compute. reflexivity.
Defined.

(** ** A write that lands while the partition is being trimmed *)

Lemma trim_loop_fulfilled e name keys n : ∀ w i,
  (∀ u, delete_fails e name u = false) →
  fst (trim_loop name keys i n e w) = Fulfilled tt.
Proof.
  induction n as [|n IH]; intros w i Hdel; simpl; [done|].
  unfold bind at 1.
  destruct (keys !! i) as [u|].
  - unfold cache_delete. rewrite Hdel. by apply IH.
  - unfold bind, self_location, cache_delete. rewrite Hdel. by apply IH.
Qed.

Lemma partition_deleted w name u k :
  entries_match
    (partition (set_caches w (alter (fun es => entries_delete es u) name (caches w))) name) k
  = if decide (u = k) then None else entries_match (partition w name) k.
Proof.
  unfold partition. simpl. rewrite lookup_alter_eq.
  destruct (caches w !! name) as [es|]; simpl.
  - apply entries_match_delete.
  - by destruct (decide (u = k)).
Qed.

(** Once the loop has passed the index of a key, the partition has no entry
    under it, whatever was written before the loop got there. *)
Lemma trim_loop_deletes e name keys k n : ∀ w i,
  (∀ u, delete_fails e name u = false) →
  entries_match (partition w name) k = None
  ∨ (∃ j, (i ≤ j < i + n)%nat ∧ keys !! j = Some k) →
  entries_match (partition (snd (trim_loop name keys i n e w)) name) k = None.
Proof.
  induction n as [|n IH]; intros w i Hdel Hk; simpl.
  - destruct Hk as [Hk|(j & Hj & _)]; [done|lia].
  - unfold bind at 1.
    assert (Hstep : ∀ u,
      keys !! i = Some u ∨ keys !! i = None →
      entries_match
        (partition (set_caches w (alter (fun es => entries_delete es u) name (caches w)))
           name) k = None
      ∨ (∃ j, (S i ≤ j < S i + n)%nat ∧ keys !! j = Some k)).
    { intros u Hu. rewrite partition_deleted.
      destruct (decide (u = k)) as [->|Hne]; [by left|].
      destruct Hk as [Hk|(j & Hj & Hkj)]; [by left|].
      destruct (decide (j = i)) as [->|Hji].
      - destruct Hu as [Hu|Hu]; congruence.
      - right. exists j. split; [lia|done]. }
    destruct (keys !! i) as [u|] eqn:Hi.
    + unfold cache_delete. rewrite Hdel. apply IH; [done|]. apply Hstep. by left.
    + unfold bind, self_location, cache_delete. rewrite Hdel.
      apply IH; [done|]. apply Hstep. by right.
Qed.

Lemma trimCache_upto_fulfilled j e w name (c : Cache) maxEntries :
  open_fails e name = false →
  keys_fails e name = false →
  (∀ u, delete_fails e name u = false) →
  caches w !! name = Some c →
  let deleteCount :=
    if Z.of_nat (length c) <=? maxEntries then 0%nat
    else Z.to_nat (Z.of_nat (length c) - maxEntries) in
  ∃ w2, trimCache_upto j name maxEntries e w =
        (Fulfilled (name, entries_keys c, Nat.min j deleteCount,
                    (deleteCount - Nat.min j deleteCount)%nat), w2).
Proof.
  intros Hopen Hkeys Hdel Hc d.
  unfold trimCache_upto, bind at 1, caches_open. rewrite Hopen.
  rewrite create_if_absent_idemp by (by eexists).
  unfold bind at 1, cache_keys. rewrite Hkeys.
  assert (Hpart : partition w name = c) by (unfold partition; by rewrite Hc).
  rewrite Hpart, entries_keys_length. fold d.
  unfold bind at 1.
  pose proof (trim_loop_fulfilled e name (entries_keys c) (Nat.min j d) w 0%nat Hdel)
    as Hful.
  destruct (trim_loop name (entries_keys c) 0 (Nat.min j d) e w) as [o w2].
  simpl in Hful. subst o. by exists w2.
Qed.

Lemma entries_match_stored (c : Cache) i k :
  entries_keys c !! i = Some k → is_Some (entries_match c k).
Proof.
  revert i. induction c as [|[k0 r] c IH]; intros i Hi; [done|]. simpl.
  destruct (decide (k0 = k)); [by eexists|].
  destruct i as [|i]; simpl in Hi; [congruence|]. by apply (IH i).
Qed.

(** X17. A write that lands while the partition is being trimmed can be
    lost.  Take an asset partition beyond its bound and a request whose key
    is among the entries the trimming is going to evict.  When [caches.open],
    [cache.match], [cache.keys] and [cache.delete] are not rejected, the
    fetch is fulfilled with an ok response, and the write lands after the
    trimming has read the keys and before it deletes that key, then the
    request is answered from the cache, and afterwards the partition holds
    no entry for it, neither the old one nor the fresh one: the next request
    for it with the network down gets the 504 response. *)
Theorem raced_write_is_evicted i j s2 e e2 w req fresh :
  open_fails e CACHE_ASSETS = false →
  match_fails e CACHE_ASSETS (url req) = false →
  keys_fails e CACHE_ASSETS = false →
  (∀ u, delete_fails e CACHE_ASSETS u = false) →
  network e req = Fulfilled fresh →
  ok fresh = true →
  entries_keys (partition w CACHE_ASSETS) !! i = Some (url req) →
  Z.of_nat i + MAX_ASSET_ENTRIES < Z.of_nat (length (partition w CACHE_ASSETS)) →
  (j ≤ i)%nat →
  open_fails e2 CACHE_ASSETS = false →
  match_fails e2 CACHE_ASSETS (url req) = false →
  network e2 req = Rejected →
  let w1 := snd (respond_asset_at (AfterDeletions j) req e w) in
  (∃ cached, entries_match (partition w CACHE_ASSETS) (url req) = Some cached
             ∧ fst (respond_asset_at (AfterDeletions j) req e w) = Fulfilled cached)
  ∧ entries_match (partition w1 CACHE_ASSETS) (url req) = None
  ∧ fst (respond_asset_at s2 req e2 w1) = Fulfilled timeout_response.
Proof.
  intros Hopen Hmatch Hkeys Hdel Hnet Hok Hi Hlen Hj Hopen2 Hmatch2 Hnet2 w1.
  assert (Hgone : entries_match (partition w1 CACHE_ASSETS) (url req) = None).
  { unfold w1. rewrite (respond_asset_at_store _ e w req fresh) by done.
    unfold store_and_trim, detach. cbn [snd].
    unfold trimCache_racing.
    destruct (trimCache_upto_fulfilled j e (create_if_absent w CACHE_ASSETS) CACHE_ASSETS
                (partition w CACHE_ASSETS) MAX_ASSET_ENTRIES Hopen Hkeys Hdel
                (create_if_absent_lookup w CACHE_ASSETS)) as [w2 ->].
    destruct (Z.leb_spec (Z.of_nat (length (partition w CACHE_ASSETS))) MAX_ASSET_ENTRIES);
      [lia|].
    apply trim_loop_deletes; [done|].
    right. exists i. split; [lia|done]. }
  split; [|split; [done|]].
  - destruct (entries_match_stored _ _ _ Hi) as [cached Hcached].
    exists cached. split; [done|].
    by rewrite respond_asset_at_outcome, respond_asset_outcome, Hopen, Hmatch, Hcached.
  - by rewrite respond_asset_at_outcome, respond_asset_outcome, Hopen2, Hmatch2, Hgone, Hnet2.
Qed.

Lemma raced_write_is_evicted_witness :
  let fresh := sample_response 200 "new" in
  let e := sample_env (Fulfilled fresh) in
  let e2 := sample_env Rejected in
  let w := sample_worker {[ CACHE_ASSETS := numbered_entries 121 ]} in
  let req := subresource "asset-0.css" "style" in
  let w1 := snd (respond_asset_at (AfterDeletions 0) req e w) in
  (∃ cached, entries_match (partition w CACHE_ASSETS) (url req) = Some cached
             ∧ fst (respond_asset_at (AfterDeletions 0) req e w) = Fulfilled cached)
  ∧ entries_match (partition w1 CACHE_ASSETS) (url req) = None
  ∧ fst (respond_asset_at BeforeKeys req e2 w1) = Fulfilled timeout_response.
Proof.
  apply (raced_write_is_evicted 0 0 BeforeKeys
           (sample_env (Fulfilled (sample_response 200 "new")))
           (sample_env Rejected)
           (sample_worker {[ CACHE_ASSETS := numbered_entries 121 ]})
           (subresource "asset-0.css" "style") (sample_response 200 "new"));
    reflexivity.
Defined.

(** X7. The other strategy stores into the asset partition without trimming
    it.  When [caches.open] is not rejected and the fetch is fulfilled with
    an ok response for a key that is not stored yet, the partition is one
    entry longer afterwards, whatever its length, provided [cache.put] takes
    the response: it is not partial (206), its Vary header has no star, and
    the storage does not fail the write.  When [cache.put] rejects it, the
    partition is as it was. *)
Theorem other_strategy_does_not_trim e w req fresh :
  open_fails e CACHE_ASSETS = false →
  network e req = Fulfilled fresh →
  ok fresh = true →
  url req ∉ entries_keys (partition w CACHE_ASSETS) →
  let after := partition (snd (respond_other req e w)) CACHE_ASSETS in
  if unstorable fresh || put_faulty e CACHE_ASSETS (url req) fresh
  then after = partition w CACHE_ASSETS
  else after = (partition w CACHE_ASSETS ++ [(url req, fresh)])%list
       ∧ length after = S (length (partition w CACHE_ASSETS)).
Proof.
  intros Hopen Hnet Hok Hkey after. unfold after.
  rewrite respond_other_store, Hopen, Hnet, Hok.
  change (unstorable fresh || put_faulty e CACHE_ASSETS (url req) fresh)
    with (put_fails e CACHE_ASSETS (url req) fresh).
  destruct (put_fails e CACHE_ASSETS (url req) fresh); cbn [andb negb].
  - by rewrite partition_create_if_absent.
  - rewrite partition_alter by apply create_if_absent_present.
    destruct (decide (CACHE_ASSETS = CACHE_ASSETS)); [|done].
    rewrite partition_create_if_absent. unfold entries_put.
    rewrite entries_delete_absent by done.
    split; [done|]. rewrite length_app. simpl. lia.
Qed.

Lemma other_strategy_does_not_trim_witness :
  let fresh := sample_response 200 "{}" in
  let partial := sample_response 206 "{" in
  let w := sample_worker {[ CACHE_ASSETS := numbered_entries 120 ]} in
  let req := subresource "data.json" "" in
  (partition (snd (respond_other req (sample_env (Fulfilled fresh)) w)) CACHE_ASSETS
   = (partition w CACHE_ASSETS ++ [(url req, fresh)])%list
   ∧ length (partition (snd (respond_other req (sample_env (Fulfilled fresh)) w))
               CACHE_ASSETS) = 121%nat)
  ∧ partition (snd (respond_other req (sample_env (Fulfilled partial)) w)) CACHE_ASSETS
    = partition w CACHE_ASSETS.
Proof.
  assert (Hkey : url (subresource "data.json" "")
                 ∉ entries_keys
                     (partition (sample_worker {[ CACHE_ASSETS := numbered_entries 120 ]})
                        CACHE_ASSETS)).
  { apply (bool_decide_unpack _). vm_compute. reflexivity. }
  split.
  - exact (other_strategy_does_not_trim
             (sample_env (Fulfilled (sample_response 200 "{}")))
             (sample_worker {[ CACHE_ASSETS := numbered_entries 120 ]})
             (subresource "data.json" "") (sample_response 200 "{}")
             eq_refl eq_refl eq_refl Hkey).
  - exact (other_strategy_does_not_trim
             (sample_env (Fulfilled (sample_response 206 "{")))
             (sample_worker {[ CACHE_ASSETS := numbered_entries 120 ]})
             (subresource "data.json" "") (sample_response 206 "{")
             eq_refl eq_refl eq_refl Hkey).
Defined.

(** ** Network-first over two requests *)

Lemma strategy_store_network_first c req e w :
  c ≠ Asset →
  snd (strategy c req e w) =
  if open_fails e (partition_of c) then w
  else
    let w0 := create_if_absent w (partition_of c) in
    match network e (sent_request c req) with
    | Fulfilled fresh =>
        if ok fresh && negb (put_fails e (partition_of c) (url req) fresh)
        then set_caches w0 (alter (fun es => entries_put es (url req) fresh)
                                  (partition_of c) (caches w0))
        else w0
    | _ => w0
    end.
Proof.
  intros Hc. destruct c; [|done|]; simpl.
  - apply respond_html_store.
  - apply respond_other_store.
Qed.

Lemma strategy_outcome_network_first c req e w :
  c ≠ Asset →
  open_fails e (partition_of c) = false →
  fst (strategy c req e w) =
  match network e (sent_request c req) with
  | Fulfilled fresh => Fulfilled fresh
  | Pending => Pending
  | Rejected =>
      if match_fails e (partition_of c) (url req) then Rejected
      else match entries_match (partition w (partition_of c)) (url req) with
           | Some cached => Fulfilled cached
           | None => fst (strategy c req e w)
           end
  end.
Proof.
  intros Hc Hopen. destruct c; [|done|]; simpl in *.
  - rewrite respond_html_outcome, Hopen.
    destruct (network e _); [done| |done].
    destruct (match_fails e CACHE_HTML (url req)); [done|].
    by destruct (entries_match _ (url req)).
  - rewrite respond_other_outcome, Hopen.
    destruct (network e _); [done| |done].
    destruct (match_fails e CACHE_ASSETS (url req)); [done|].
    by destruct (entries_match _ (url req)).
Qed.

(** X8. Online, then offline.  After a document or other request has been
    answered from the network with an ok response and its write has gone
    through, the same request made while the network fails is answered with
    that very response. *)
Theorem online_then_offline_replay c req e1 e2 w fresh :
  c ≠ Asset →
  open_fails e1 (partition_of c) = false →
  put_fails e1 (partition_of c) (url req) fresh = false →
  network e1 (sent_request c req) = Fulfilled fresh →
  ok fresh = true →
  open_fails e2 (partition_of c) = false →
  match_fails e2 (partition_of c) (url req) = false →
  network e2 (sent_request c req) = Rejected →
  fst (strategy c req e1 w) = Fulfilled fresh
  ∧ fst (strategy c req e2 (snd (strategy c req e1 w))) = Fulfilled fresh.
Proof.
  intros Hc Hopen1 Hput Hnet1 Hok Hopen2 Hmatch Hnet2. split.
  - by rewrite strategy_outcome_network_first, Hnet1.
  - rewrite strategy_outcome_network_first, Hnet2, Hmatch by done.
    rewrite strategy_store_network_first, Hopen1, Hnet1, Hok, Hput by done.
    cbn [andb negb].
    rewrite partition_alter by apply create_if_absent_present.
    destruct (decide (partition_of c = partition_of c)); [|done].
    rewrite entries_match_put. by destruct (decide (url req = url req)).
Qed.

Lemma online_then_offline_replay_witness :
  let fresh := sample_response 200 "{}" in
  let e1 := sample_env (Fulfilled fresh) in
  let e2 := sample_env Rejected in
  let w := sample_worker ∅ in
  let req := subresource "data.json" "" in
  fst (strategy Other req e1 w) = Fulfilled fresh
  ∧ fst (strategy Other req e2 (snd (strategy Other req e1 w))) = Fulfilled fresh.
Proof.
  apply online_then_offline_replay; try reflexivity. discriminate.
Defined.

Lemma entries_delete_app (c1 c2 : Cache) k :
  entries_delete (c1 ++ c2) k = (entries_delete c1 k ++ entries_delete c2 k)%list.
Proof.
  induction c1 as [|[k' r] c1 IH]; simpl; [done|].
  destruct (decide (k' = k)); [done|]. simpl. by rewrite IH.
Qed.

Lemma entries_put_idemp (es : Cache) k r :
  entries_put (entries_put es k r) k r = entries_put es k r.
Proof.
  unfold entries_put. rewrite entries_delete_app. simpl.
  destruct (decide (k = k)); [|done].
  rewrite entries_delete_absent by apply entries_keys_delete_absent.
  by rewrite app_nil_r.
Qed.

(** X9. A document or other request overwrites, it does not accumulate:
    handled a second time under the same conditions, whatever they are, it
    leaves the store exactly as the first time left it. *)
Theorem network_first_store_idempotent c req e w :
  c ≠ Asset →
  snd (strategy c req e (snd (strategy c req e w))) = snd (strategy c req e w).
Proof.
  intros Hc. rewrite !(strategy_store_network_first c req e) by done.
  destruct (open_fails e (partition_of c)); [done|].
  set (w0 := create_if_absent w (partition_of c)).
  assert (Hw0 : create_if_absent w0 (partition_of c) = w0).
  { apply create_if_absent_idemp, create_if_absent_present. }
  cbv zeta.
  destruct (network e (sent_request c req)) as [fresh| |]; [|done|done].
  destruct (ok fresh && negb (put_fails e (partition_of c) (url req) fresh));
    [|done].
  rewrite create_if_absent_idemp.
  - simpl. rewrite alter_alter_eq. f_equal. apply alter_ext.
    intros es _. apply entries_put_idemp.
  - simpl. apply alter_keeps, create_if_absent_present.
Qed.

Lemma network_first_store_idempotent_witness :
  let e := sample_env (Fulfilled (sample_response 200 "home")) in
  let w := sample_worker store_with_old_generation in
  let req := navigation "index.html" in
  snd (strategy Document req e (snd (strategy Document req e w)))
  = snd (strategy Document req e w).
Proof.
  apply network_first_store_idempotent. discriminate.
Defined.

(** ** From install to an offline navigation *)

Lemma install_stored e w p fresh :
  open_fails e CACHE_HTML = false →
  open_fails e CACHE_ASSETS = false →
  (∀ q, q ∈ CORE_ASSETS → network e (new_Request (location e) q "reload") ≠ Pending) →
  p ∈ CORE_ASSETS →
  network e (new_Request (location e) p "reload") = Fulfilled fresh →
  ok fresh = true →
  put_fails e (precache_partition p) (resolve (location e) p) fresh = false →
  entries_match (partition (snd (install e w)) (precache_partition p))
    (resolve (location e) p) = Some fresh.
Proof.
  intros Hopen1 Hopen2 Hnet Hp Hfetch Hok Hput.
  rewrite install_run by done. cbn [snd].
  destruct (resolve_manifest_NoDup (location e)) as [Hnd1 Hnd2].
  apply manifest_split in Hp. unfold precache_partition in *.
  destruct (existsb (String.eqb p) htmlList); unfold partition; cbn [caches].
  - rewrite lookup_alter_ne by done. rewrite lookup_alter_eq.
    destruct (create_if_absent_keeps (create_if_absent w CACHE_HTML) CACHE_ASSETS
                CACHE_HTML (create_if_absent_present w CACHE_HTML)) as [es ->].
    exact (fold_precached_stored e CACHE_HTML htmlList es p fresh Hnd1 Hp Hfetch Hok Hput).
  - rewrite lookup_alter_eq, lookup_alter_ne by done.
    destruct (create_if_absent_present (create_if_absent w CACHE_HTML) CACHE_ASSETS)
      as [es ->].
    exact (fold_precached_stored e CACHE_ASSETS assetList es p fresh Hnd2 Hp Hfetch Hok Hput).
Qed.

(** X10. From install to an offline navigation.  When install has fetched
    and stored ./index.html and activation has run, a navigation made while
    the network fails is answered with the entry cached for it or else with
    the precached ./index.html, never with the 503 notice. *)
Theorem precached_root_serves_offline e1 e2 e3 w req fresh :
  open_fails e1 CACHE_HTML = false →
  open_fails e1 CACHE_ASSETS = false →
  (∀ q, q ∈ CORE_ASSETS → network e1 (new_Request (location e1) q "reload") ≠ Pending) →
  network e1 (new_Request (location e1) "./index.html" "reload") = Fulfilled fresh →
  ok fresh = true →
  put_fails e1 CACHE_HTML (resolve (location e1) "./index.html") fresh = false →
  storage_keys_fails e2 = false →
  (∀ k, storage_delete_fails e2 k = false) →
  location e3 = location e1 →
  open_fails e3 CACHE_HTML = false →
  (∀ k, match_fails e3 CACHE_HTML k = false) →
  network e3 (with_cache req "no-store") = Rejected →
  ∃ w1 w2,
    install e1 w = (Fulfilled tt, w1)
    ∧ activate e2 w1 = (Fulfilled tt, w2)
    ∧ fst (respond_html req e3 w2)
      = Fulfilled (default fresh (entries_match (partition w2 CACHE_HTML) (url req))).
Proof.
  intros Hopen1 Hopen2 Hsettle Hindex Hok Hput Hkeys Hdel Hloc Hopen3 Hmatch Hnet.
  assert (Hst : entries_match (partition (snd (install e1 w)) CACHE_HTML)
                  (resolve (location e1) "./index.html") = Some fresh).
  { apply (install_stored e1 w "./index.html" fresh); try done.
    apply list_elem_of_In. simpl. tauto. }
  assert (Hrun : install e1 w = (Fulfilled tt, snd (install e1 w))).
  { by rewrite install_run. }
  destruct (activate_run e2 (snd (install e1 w)) Hkeys Hdel) as (m' & Hact & Hm').
  eexists. eexists. split; [exact Hrun|]. split; [exact Hact|].
  assert (Hkept : partition (mkWorker m' (skipWaitingCalled (snd (install e1 w))) true)
                    CACHE_HTML
                  = partition (snd (install e1 w)) CACHE_HTML).
  { unfold partition. cbn [caches]. rewrite Hm'.
    by replace (obsolete CACHE_HTML) with false by reflexivity. }
  rewrite respond_html_outcome, Hopen3, Hnet, !Hmatch, Hloc, Hkept, Hst.
  by destruct (entries_match _ (url req)).
Qed.

Lemma precached_root_serves_offline_witness :
  let e1 := flaky_env in
  let e2 := sample_env Rejected in
  let w := sample_worker ∅ in
  let req := navigation "about.html" in
  ∃ w1 w2,
    install e1 w = (Fulfilled tt, w1)
    ∧ activate e2 w1 = (Fulfilled tt, w2)
    ∧ fst (respond_html req e2 w2)
      = Fulfilled (default (mkResponse 200 [] "home")
                     (entries_match (partition w2 CACHE_HTML) (url req))).
Proof.
  apply (precached_root_serves_offline flaky_env (sample_env Rejected)
           (sample_env Rejected) (sample_worker ∅) (navigation "about.html")
           (mkResponse 200 [] "home")).
  - reflexivity.
  - reflexivity.
  - intros q _. simpl. destruct (endsWith _ ".html"); discriminate.
  - reflexivity.
  - reflexivity.
  - reflexivity.
  - reflexivity.
  - intros k. reflexivity.
  - reflexivity.
  - reflexivity.
  - intros k. reflexivity.
  - reflexivity.
Defined.

(** ** Activation that goes wrong *)

Lemma run_all_cleanup_faulty e keys w :
  ∃ os m', run_all (map cleanup keys) e w = (os, set_caches w m')
    ∧ (∀ n, m' !! n = if decide (n ∈ keys)
                      then (if obsolete n && negb (storage_delete_fails e n)
                            then None else caches w !! n)
                      else caches w !! n)
    ∧ existsb is_rejected os
      = existsb (fun k => obsolete k && storage_delete_fails e k) keys
    ∧ existsb is_pending os = false.
Proof.
  revert w. induction keys as [|k keys IH]; intros w; simpl.
  - exists [], (caches w). by rewrite set_caches_id.
  - set (gone := obsolete k && negb (storage_delete_fails e k)).
    assert (Hk : cleanup k e w =
                 (if obsolete k && storage_delete_fails e k then Rejected else Fulfilled tt,
                  set_caches w (if gone then delete k (caches w) else caches w))).
    { unfold cleanup, caches_delete, ret, gone.
      destruct (obsolete k); simpl; [|by rewrite set_caches_id].
      destruct (storage_delete_fails e k); simpl; [by rewrite set_caches_id|done]. }
    rewrite Hk.
    destruct (IH (set_caches w (if gone then delete k (caches w) else caches w)))
      as (os & m' & -> & Hm' & Hrej & Hpend).
    eexists _, m'. split; [done|]. split; [|split].
    + intros n. rewrite Hm'. simpl.
      destruct (decide (n = k)) as [->|Hne].
      * rewrite (decide_True _ _ (list_elem_of_here k keys)). fold gone.
        destruct gone; [|by destruct (decide (k ∈ keys))].
        rewrite lookup_delete_eq. by destruct (decide (k ∈ keys)).
      * assert (Hother : (if gone then delete k (caches w) else caches w) !! n
                         = caches w !! n).
        { destruct gone; [by rewrite lookup_delete_ne|done]. }
        rewrite Hother.
        destruct (decide (n ∈ keys)) as [Hin|Hnin].
        -- by rewrite (decide_True _ _ (list_elem_of_further n k keys Hin)).
        -- rewrite decide_False; [done|]. intros [?|?]%elem_of_cons; done.
    + simpl. rewrite Hrej. by destruct (obsolete k && storage_delete_fails e k).
    + simpl. rewrite Hpend. by destruct (obsolete k && storage_delete_fails e k).
Qed.

(** X11. Activation that goes wrong.  When [caches.keys] is rejected,
    activation is rejected and nothing changes.  When the deletion of one
    obsolete partition is rejected, activation is rejected and the clients
    are not claimed, yet every other obsolete partition has been deleted;
    the one whose deletion failed and all the partitions that are not
    obsolete are as before. *)
Theorem activate_rejected e w :
  (storage_keys_fails e = true → activate e w = (Rejected, w))
  ∧ (storage_keys_fails e = false →
     (∃ k, is_Some (caches w !! k) ∧ obsolete k = true
           ∧ storage_delete_fails e k = true) →
     ∃ w', activate e w = (Rejected, w')
           ∧ clientsClaimed w' = clientsClaimed w
           ∧ ∀ n, caches w' !! n =
                  if obsolete n && negb (storage_delete_fails e n)
                  then None else caches w !! n).
Proof.
  split.
  - intros Hkeys. unfold activate, bind, caches_keys. by rewrite Hkeys.
  - intros Hkeys (k & [es Hk] & Hob & Hfail).
    destruct (run_all_cleanup_faulty e (map fst (map_to_list (caches w))) w)
      as (os & m' & Hrun & Hm' & Hrej & Hpend).
    assert (Hin : ∀ n, is_Some (caches w !! n) → n ∈ map fst (map_to_list (caches w))).
    { intros n [x Hx]. apply list_elem_of_fmap. exists (n, x).
      split; [done|]. by apply elem_of_map_to_list. }
    exists (set_caches w m'). split; [|split; [done|]].
    + unfold activate, bind, caches_keys, all. rewrite Hkeys, Hrun, Hrej.
      replace (existsb _ _) with true; [done|]. symmetry.
      apply existsb_exists. exists k. split.
      * apply list_elem_of_In, Hin. by eexists.
      * by rewrite Hob, Hfail.
    + intros n. simpl. rewrite Hm'.
      destruct (decide (n ∈ map fst (map_to_list (caches w)))) as [|Hnin]; [done|].
      destruct (caches w !! n) eqn:Hn.
      * exfalso. apply Hnin, Hin. by rewrite Hn.
      * by destruct (obsolete n && negb (storage_delete_fails e n)).
Qed.

Lemma activate_rejected_witness :
  let e := partition_delete_rejecting_env "svetla-html-2025-11-02_01" in
  let w := sample_worker
             (<[ "svetla-assets-2025-11-02_01" := [] ]> store_with_old_generation) in
  ∃ w', activate e w = (Rejected, w')
        ∧ clientsClaimed w' = clientsClaimed w
        ∧ caches w' !! "svetla-assets-2025-11-02_01" = None
        ∧ caches w' !! "svetla-html-2025-11-02_01"
          = caches w !! "svetla-html-2025-11-02_01".
Proof.
  destruct (proj2 (activate_rejected
              (partition_delete_rejecting_env "svetla-html-2025-11-02_01")
              (sample_worker
                 (<[ "svetla-assets-2025-11-02_01" := [] ]> store_with_old_generation))))
    as (w' & Hrun & Hclaim & Hstore).
  - reflexivity.
  - exists "svetla-html-2025-11-02_01". split; [|split]; [|reflexivity..].
    vm_compute. eexists. reflexivity.
  - exists w'. split; [exact Hrun|]. split; [exact Hclaim|]. split.
    + rewrite Hstore. reflexivity.
    + rewrite Hstore. reflexivity.
Defined.

(** ** How install ends *)

Lemma run_all_precache_pending cache l e w :
  existsb is_pending (fst (run_all (map (precache cache) l) e w))
  = existsb (fun p => is_pending (network e (new_Request (location e) p "reload"))) l.
Proof.
  revert w. induction l as [|p l IH]; intros w; simpl; [done|].
  assert (Hp : is_pending (fst (precache cache p e w))
               = is_pending (network e (new_Request (location e) p "reload"))).
  { unfold precache, bind, self_location, fetch, cache_put, ret.
    destruct (network e (new_Request (location e) p "reload")) as [res| |]; [|done|done].
    destruct (ok res); [|done]. by destruct (put_fails e cache _ res). }
  destruct (precache cache p e w) as [o w1]. simpl in Hp.
  specialize (IH w1). destruct (run_all (map (precache cache) l) e w1) as [os w2].
  simpl in *. by rewrite Hp, IH.
Qed.

Lemma install_result e w :
  let stalled := fun p => is_pending (network e (new_Request (location e) p "reload")) in
  let wa := create_if_absent w CACHE_HTML in
  let w0 := create_if_absent wa CACHE_ASSETS in
  let w1 := set_caches w0
              (alter (fun es => fold_left (precached e CACHE_HTML) htmlList es)
                     CACHE_HTML (caches w0)) in
  let w2 := set_caches w1
              (alter (fun es => fold_left (precached e CACHE_ASSETS) assetList es)
                     CACHE_ASSETS (caches w1)) in
  install e w =
  if open_fails e CACHE_HTML then (Rejected, w)
  else if open_fails e CACHE_ASSETS then (Rejected, wa)
  else if existsb stalled htmlList then (Pending, w1)
  else if existsb stalled assetList then (Pending, w2)
  else (Fulfilled tt, mkWorker (caches w2) true (clientsClaimed w2)).
Proof.
  intros stalled wa w0 w1 w2.
  unfold install, bind, caches_open, allSettled, skipWaiting.
  destruct (open_fails e CACHE_HTML); [done|]. fold wa.
  destruct (open_fails e CACHE_ASSETS); [done|]. fold w0.
  pose proof (run_all_precache_pending CACHE_HTML htmlList e w0) as Hp1.
  destruct (run_all_precache CACHE_HTML htmlList e w0) as [Hs1 _].
  destruct (run_all (map (precache CACHE_HTML) htmlList) e w0) as [os1 w1'].
  cbn [fst snd] in Hp1, Hs1. fold w1 in Hs1. subst w1'.
  rewrite Hp1. fold stalled. destruct (existsb stalled htmlList); [done|].
  pose proof (run_all_precache_pending CACHE_ASSETS assetList e w1) as Hp2.
  destruct (run_all_precache CACHE_ASSETS assetList e w1) as [Hs2 _].
  destruct (run_all (map (precache CACHE_ASSETS) assetList) e w1) as [os2 w2'].
  cbn [fst snd] in Hp2, Hs2. fold w2 in Hs2. subst w2'.
  rewrite Hp2. fold stalled. by destruct (existsb stalled assetList).
Qed.

Lemma existsb_pending_false e (l : list string) :
  existsb (fun p => is_pending (network e (new_Request (location e) p "reload"))) l = false
  ↔ ∀ p, p ∈ l → network e (new_Request (location e) p "reload") ≠ Pending.
Proof.
  induction l as [|q l IH]; simpl.
  - split; [by intros _ p ?%elem_of_nil|done].
  - rewrite orb_false_iff, IH. split.
    + intros [Hq Hl] p [->|Hp]%elem_of_cons; [|by apply Hl].
      by destruct (network e _).
    + intros H. split.
      * specialize (H q (list_elem_of_here q l)). by destruct (network e _).
      * intros p Hp. apply H. by apply list_elem_of_further.
Qed.

Lemma manifest_parts p : p ∈ CORE_ASSETS ↔ p ∈ htmlList ∨ p ∈ assetList.
Proof.
  split.
  - intros Hp. apply manifest_split in Hp.
    destruct (existsb (String.eqb p) htmlList); auto.
  - unfold htmlList, assetList.
    intros [Hp|Hp]; apply list_elem_of_In, filter_In in Hp as [Hp _];
      by apply list_elem_of_In.
Qed.

(** X12. How install ends.  Install is fulfilled exactly when both
    [caches.open] calls succeed and every manifest fetch settles; it is
    rejected exactly when one of the two [caches.open] calls is rejected, so
    never by a failed fetch or a rejected write; and [skipWaiting] is reached
    only when it is fulfilled.  While a fetch of the document list never
    settles, nothing is written to the asset partition. *)
Theorem install_outcome e w :
  (fst (install e w) = Fulfilled tt ↔
   open_fails e CACHE_HTML = false ∧ open_fails e CACHE_ASSETS = false
   ∧ ∀ p, p ∈ CORE_ASSETS → network e (new_Request (location e) p "reload") ≠ Pending)
  ∧ (fst (install e w) = Rejected ↔
     open_fails e CACHE_HTML = true ∨ open_fails e CACHE_ASSETS = true)
  ∧ skipWaitingCalled (snd (install e w))
    = (if fst (install e w) is Fulfilled _ then true else skipWaitingCalled w)
  ∧ (open_fails e CACHE_HTML = false → open_fails e CACHE_ASSETS = false →
     (∃ p, p ∈ htmlList ∧ network e (new_Request (location e) p "reload") = Pending) →
     fst (install e w) = Pending
     ∧ partition (snd (install e w)) CACHE_ASSETS = partition w CACHE_ASSETS).
Proof.
  pose proof (install_result e w) as Hres. cbv zeta in Hres.
  pose proof (existsb_pending_false e htmlList) as Hh.
  pose proof (existsb_pending_false e assetList) as Ha.
  assert (Hflag : ∀ w' n, skipWaitingCalled (create_if_absent w' n) = skipWaitingCalled w').
  { intros w' n. unfold create_if_absent. by destruct (caches w' !! n). }
  rewrite Hres.
  destruct (open_fails e CACHE_HTML) eqn:Hopen1.
  { cbn [fst snd]. split; [|split; [|split; [done|]]].
    - split; [done|]. intros (? & _); done.
    - split; [auto|done].
    - intros ?; done. }
  destruct (open_fails e CACHE_ASSETS) eqn:Hopen2.
  { cbn [fst snd]. rewrite Hflag. split; [|split; [|split; [done|]]].
    - split; [done|]. intros (_ & ? & _); done.
    - split; [auto|done].
    - intros _ ?; done. }
  destruct (existsb _ htmlList) eqn:Hph.
  { cbn [fst snd]. unfold set_caches. cbn [skipWaitingCalled]. rewrite !Hflag.
    split; [|split; [|split; [done|]]].
    - split; [done|]. intros (_ & _ & Hall).
      assert (Hfalse : true = false); [|done].
      apply Hh. intros p Hp. apply Hall, manifest_parts. by left.
    - split; [done|]. intros [?|?]; done.
    - intros _ _ _. split; [done|].
      unfold partition. cbn [caches]. rewrite lookup_alter_ne by done.
      fold (partition (create_if_absent (create_if_absent w CACHE_HTML) CACHE_ASSETS)
              CACHE_ASSETS).
      by rewrite !partition_create_if_absent. }
  destruct (existsb _ assetList) eqn:Hpa.
  { cbn [fst snd]. unfold set_caches. cbn [skipWaitingCalled]. rewrite !Hflag.
    split; [|split; [|split; [done|]]].
    - split; [done|]. intros (_ & _ & Hall).
      assert (Hfalse : true = false); [|done].
      apply Ha. intros p Hp. apply Hall, manifest_parts. by right.
    - split; [done|]. intros [?|?]; done.
    - intros _ _ (p & Hp & Hpend). exfalso.
      apply (proj1 Hh eq_refl p Hp Hpend). }
  cbn [fst snd skipWaitingCalled]. split; [|split; [|split; [done|]]].
  - split; [|done]. intros _. split; [done|]. split; [done|].
    intros p [Hp|Hp]%manifest_parts; [by apply Hh|by apply Ha].
  - split; [done|]. intros [?|?]; done.
  - intros _ _ (p & Hp & Hpend). exfalso. apply (proj1 Hh eq_refl p Hp Hpend).
Qed.

Lemma install_outcome_witness :
  let e := stalled_env in
  let w := sample_worker ∅ in
  fst (install e w) = Pending
  ∧ partition (snd (install e w)) CACHE_ASSETS = partition w CACHE_ASSETS.
Proof.
  apply (install_outcome stalled_env (sample_worker ∅)).
  - reflexivity.
  - reflexivity.
  - exists "./index.html". split; [|reflexivity].
    apply list_elem_of_In. simpl. right. left. reflexivity.
Defined.

(** ** What install may write *)

Lemma install_partition e w n :
  ∃ l, (l = [] ∨ (n = CACHE_HTML ∧ l = htmlList) ∨ (n = CACHE_ASSETS ∧ l = assetList))
       ∧ partition (snd (install e w)) n = fold_left (precached e n) l (partition w n).
Proof.
  pose proof (install_result e w) as Hres. cbv zeta in Hres. rewrite Hres. clear Hres.
  set (wa := create_if_absent w CACHE_HTML).
  set (w0 := create_if_absent wa CACHE_ASSETS).
  assert (Hw0 : ∀ m, partition w0 m = partition w m).
  { intros m. unfold w0, wa. by rewrite !partition_create_if_absent. }
  assert (Hh : is_Some (caches w0 !! CACHE_HTML)).
  { apply create_if_absent_keeps, create_if_absent_present. }
  assert (Ha : is_Some (caches w0 !! CACHE_ASSETS)) by apply create_if_absent_present.
  set (Fh := fun es : Cache => fold_left (precached e CACHE_HTML) htmlList es).
  set (Fa := fun es : Cache => fold_left (precached e CACHE_ASSETS) assetList es).
  assert (H1 : ∀ m, partition (set_caches w0 (alter Fh CACHE_HTML (caches w0))) m
                    = if decide (CACHE_HTML = m) then Fh (partition w m)
                      else partition w m).
  { intros m. rewrite partition_alter by done. rewrite !Hw0.
    by destruct (decide (CACHE_HTML = m)) as [<-|]. }
  assert (H2 : ∀ m, partition
                      (set_caches (set_caches w0 (alter Fh CACHE_HTML (caches w0)))
                         (alter Fa CACHE_ASSETS (alter Fh CACHE_HTML (caches w0)))) m
                    = if decide (CACHE_ASSETS = m) then Fa (partition w m)
                      else if decide (CACHE_HTML = m) then Fh (partition w m)
                      else partition w m).
  { intros m.
    pose proof (partition_alter (set_caches w0 (alter Fh CACHE_HTML (caches w0)))
                  Fa CACHE_ASSETS m) as Hp.
    cbn [caches set_caches] in Hp. unfold set_caches at 1. cbn [skipWaitingCalled clientsClaimed].
    unfold set_caches in Hp at 1. cbn [skipWaitingCalled clientsClaimed] in Hp.
    rewrite Hp by (by apply alter_keeps). rewrite !H1.
    destruct (decide (CACHE_ASSETS = m)) as [<-|]; [|done].
    by destruct (decide (CACHE_HTML = CACHE_ASSETS)). }
  destruct (open_fails e CACHE_HTML); [exists []; auto|].
  destruct (open_fails e CACHE_ASSETS).
  { exists []. split; [auto|]. cbn [snd]. unfold wa.
    by rewrite partition_create_if_absent. }
  destruct (existsb _ htmlList).
  { cbn [snd]. rewrite H1. destruct (decide (CACHE_HTML = n)) as [<-|].
    - exists htmlList. auto.
    - exists []. auto. }
  assert (Hend : ∀ b, partition
            (if b : bool
             then set_caches (set_caches w0 (alter Fh CACHE_HTML (caches w0)))
                    (alter Fa CACHE_ASSETS (alter Fh CACHE_HTML (caches w0)))
             else mkWorker (alter Fa CACHE_ASSETS (alter Fh CACHE_HTML (caches w0)))
                    true (clientsClaimed w0)) n
            = if decide (CACHE_ASSETS = n) then Fa (partition w n)
              else if decide (CACHE_HTML = n) then Fh (partition w n)
              else partition w n).
  { intros b. rewrite <- H2. by destruct b. }
  assert (Hl : ∃ l, (l = [] ∨ (n = CACHE_HTML ∧ l = htmlList)
                     ∨ (n = CACHE_ASSETS ∧ l = assetList))
                    ∧ (if decide (CACHE_ASSETS = n) then Fa (partition w n)
                       else if decide (CACHE_HTML = n) then Fh (partition w n)
                       else partition w n)
                      = fold_left (precached e n) l (partition w n)).
  { destruct (decide (CACHE_ASSETS = n)) as [<-|]; [exists assetList; auto|].
    destruct (decide (CACHE_HTML = n)) as [<-|]; [exists htmlList; auto|].
    exists []. auto. }
  destruct Hl as (l & Hl & Heq). exists l. split; [done|]. rewrite <- Heq.
  destruct (existsb _ assetList).
  - apply (Hend true).
  - apply (Hend false).
Qed.

Lemma fold_precached_origin e cache l (es : Cache) k r :
  entries_match (fold_left (precached e cache) l es) k = Some r →
  entries_match es k = Some r
  ∨ (ok r = true
     ∧ ∃ p, p ∈ l ∧ k = resolve (location e) p
            ∧ network e (new_Request (location e) p "reload") = Fulfilled r).
Proof.
  revert es. induction l as [|p l IH]; intros es; simpl; [auto|].
  intros H. apply IH in H as [H|(Hok & q & Hq & Hk & Hnet)].
  - unfold precached in H.
    destruct (network e (new_Request (location e) p "reload")) as [res| |] eqn:Hnet;
      [|auto|auto].
    destruct (ok res) eqn:Hok; [|auto]. simpl in H.
    destruct (put_fails e cache _ res); [auto|]. simpl in H.
    rewrite entries_match_put in H.
    destruct (decide (resolve (location e) p = k)) as [<-|]; [|auto].
    injection H as <-. right. split; [done|]. exists p.
    split; [apply list_elem_of_here|done].
  - right. split; [done|]. exists q. split; [by apply list_elem_of_further|done].
Qed.

(** X13. What install may write.  Whatever the network answers and
    whichever storage operations are rejected, install leaves every
    partition other than the two current ones as it was, changes no entry
    stored under a key that is not a manifest URL, and whatever a lookup
    finds afterwards was either found before or is an ok response that the
    network gave for a manifest path: a failed or error response is never
    stored. *)
Theorem install_writes_manifest_only e w :
  (∀ n, n ≠ CACHE_HTML → n ≠ CACHE_ASSETS →
        partition (snd (install e w)) n = partition w n)
  ∧ (∀ n k, k ∉ map (resolve (location e)) CORE_ASSETS →
            entries_match (partition (snd (install e w)) n) k
            = entries_match (partition w n) k)
  ∧ (∀ n k r, entries_match (partition (snd (install e w)) n) k = Some r →
              entries_match (partition w n) k = Some r
              ∨ (ok r = true
                 ∧ ∃ p, p ∈ CORE_ASSETS ∧ k = resolve (location e) p
                        ∧ network e (new_Request (location e) p "reload")
                          = Fulfilled r)).
Proof.
  assert (Hsub : ∀ n l, l = [] ∨ (n = CACHE_HTML ∧ l = htmlList)
                        ∨ (n = CACHE_ASSETS ∧ l = assetList) →
                        ∀ p, p ∈ l → p ∈ CORE_ASSETS).
  { intros n l [->|[[_ ->]|[_ ->]]] p Hp.
    - by apply elem_of_nil in Hp.
    - apply manifest_parts. by left.
    - apply manifest_parts. by right. }
  split; [|split].
  - intros n Hh Ha. destruct (install_partition e w n) as (l & Hl & ->).
    destruct Hl as [->|[[-> _]|[-> _]]]; done.
  - intros n k Hk. destruct (install_partition e w n) as (l & Hl & ->).
    apply fold_precached_other. intros Hin. apply Hk.
    apply list_elem_of_fmap in Hin as (p & -> & Hp).
    apply list_elem_of_fmap. exists p. split; [done|]. by apply (Hsub n l).
  - intros n k r. destruct (install_partition e w n) as (l & Hl & ->).
    intros [H|(Hok & p & Hp & Hk & Hnet)]%fold_precached_origin; [by left|].
    right. split; [done|]. exists p. split; [by apply (Hsub n l)|done].
Qed.

Lemma install_writes_manifest_only_witness :
  let e := flaky_env in
  let w := sample_worker store_with_old_generation in
  partition (snd (install e w)) "notes-v1" = partition w "notes-v1"
  ∧ entries_match (partition (snd (install e w)) CACHE_HTML) (page "about.html")
    = entries_match (partition w CACHE_HTML) (page "about.html").
Proof.
  destruct (install_writes_manifest_only flaky_env
              (sample_worker store_with_old_generation)) as (Hother & Hkey & _).
  split.
  - apply Hother; discriminate.
  - apply Hkey. apply (bool_decide_unpack _). vm_compute. reflexivity.
Defined.

(** ** The second worker's install *)

Lemma combine_map_pair {A B C} (f : A → B) (g : B → C) (l : list A) :
  combine (map f l) (map g (map f l)) = map (fun a => (f a, g (f a))) l.
Proof. induction l as [|a l IH]; simpl; [done|]. by rewrite IH. Qed.

Lemma existsb_map_compose {A B} (f : A → B) (h : B → bool) (l : list A) :
  existsb h (map f l) = existsb (fun a => h (f a)) l.
Proof. induction l as [|a l IH]; simpl; [done|]. by rewrite IH. Qed.

Lemma existsb_false_forall {A} (h : A → bool) (l : list A) :
  existsb h l = false ↔ ∀ a, a ∈ l → h a = false.
Proof.
  induction l as [|b l IH]; simpl.
  - split; [by intros _ a ?%elem_of_nil|done].
  - rewrite orb_false_iff, IH. split.
    + intros [Hb Hl] a [->|Ha]%elem_of_cons; auto.
    + intros H. split; [apply H, list_elem_of_here|].
      intros a Ha. by apply H, list_elem_of_further.
Qed.

Lemma fold_put_fetched_other (f : string → Request) (g : Request → Outcome Response)
    (l : list string) (es : Cache) k :
  k ∉ map (fun p => url (f p)) l →
  entries_match
    (fold_left Barvy.put_fetched (map (fun p => (f p, g (f p))) l) es) k
  = entries_match es k.
Proof.
  revert es. induction l as [|p l IH]; intros es Hk; simpl; [done|].
  simpl in Hk. apply not_elem_of_cons in Hk as [Hne Hk].
  rewrite IH by done. unfold Barvy.put_fetched. simpl.
  destruct (g (f p)); [|done|done].
  rewrite entries_match_put. by destruct (decide (url (f p) = k)).
Qed.

Lemma fold_put_fetched_stored (f : string → Request) (g : Request → Outcome Response)
    (l : list string) (es : Cache) p r :
  NoDup (map (fun p => url (f p)) l) →
  p ∈ l →
  g (f p) = Fulfilled r →
  entries_match
    (fold_left Barvy.put_fetched (map (fun p => (f p, g (f p))) l) es) (url (f p))
  = Some r.
Proof.
  revert es. induction l as [|q l IH]; intros es Hnd Hp Hg.
  - by apply elem_of_nil in Hp.
  - simpl in Hnd. apply NoDup_cons in Hnd as [Hq Hnd]. simpl.
    apply elem_of_cons in Hp as [->|Hp].
    + rewrite fold_put_fetched_other by done.
      unfold Barvy.put_fetched. simpl. rewrite Hg, entries_match_put.
      by destruct (decide (url (f q) = url (f q))).
    + by apply IH.
Qed.

Lemma resolve_precache_NoDup base :
  NoDup (map (fun p => url (new_Request base p "default")) Barvy.PRECACHE).
Proof.
  set (at_dir := fun s : string => mkURL (origin base) (dirname (pathname base) ++ s)).
  assert (Hinj : Inj (=) (=) at_dir).
  { intros a b [= H]. by apply append_inv_head in H. }
  change (NoDup (at_dir <$> [""; "index.html"; "manifest.json"; "video.mp4";
                              "icon-192.png"; "icon-512.png"])).
  apply (NoDup_fmap_2 at_dir). apply (bool_decide_unpack _). by vm_compute.
Qed.

(** X14. The second worker's install is all-or-nothing in full.  It is
    fulfilled exactly when [caches.open] succeeds and every path of its list
    is fetched with an ok response and written; then every path is stored
    with the response fetched for it.  In every other case no partition
    gains or loses an entry.  [skipWaiting] has been called in either
    case. *)
Theorem second_worker_install_outcome e w :
  let req := fun p => new_Request (location e) p "default" in
  let w' := snd (Barvy.install e w) in
  (fst (Barvy.install e w) = Fulfilled tt ↔
   open_fails e Barvy.CACHE = false
   ∧ ∀ p, p ∈ Barvy.PRECACHE →
          ∃ r, network e (req p) = Fulfilled r ∧ ok r = true
               ∧ put_fails e Barvy.CACHE (url (req p)) r = false)
  ∧ (fst (Barvy.install e w) = Fulfilled tt →
     ∀ p r, p ∈ Barvy.PRECACHE → network e (req p) = Fulfilled r →
            entries_match (partition w' Barvy.CACHE) (url (req p)) = Some r)
  ∧ (fst (Barvy.install e w) ≠ Fulfilled tt →
     ∀ n, partition w' n = partition w n)
  ∧ skipWaitingCalled w' = true.
Proof.
  intros req w'. subst w'.
  set (w0 := mkWorker (caches w) true (clientsClaimed w)).
  set (bad := fun p => negb match network e (req p) with
                            | Fulfilled r => ok r && negb (put_fails e Barvy.CACHE (url (req p)) r)
                            | _ => false
                            end).
  assert (Hrun : Barvy.install e w =
    if open_fails e Barvy.CACHE then (Rejected, w0)
    else if existsb (fun p => Barvy.refused (network e (req p))) Barvy.PRECACHE
         then (Rejected, create_if_absent w0 Barvy.CACHE)
    else if existsb (fun p => is_pending (network e (req p))) Barvy.PRECACHE
         then (Pending, create_if_absent w0 Barvy.CACHE)
    else if existsb (fun p => match network e (req p) with
                              | Fulfilled r => put_fails e Barvy.CACHE (url (req p)) r
                              | _ => false
                              end) Barvy.PRECACHE
         then (Rejected, create_if_absent w0 Barvy.CACHE)
    else (Fulfilled tt,
          set_caches (create_if_absent w0 Barvy.CACHE)
            (alter (fun es => fold_left Barvy.put_fetched
                                (map (fun p => (req p, network e (req p))) Barvy.PRECACHE) es)
                   Barvy.CACHE (caches (create_if_absent w0 Barvy.CACHE))))).
  { unfold Barvy.install, bind, skipWaiting, caches_open, Barvy.cache_addAll.
    fold w0. destruct (open_fails e Barvy.CACHE); [done|].
    fold req. rewrite (combine_map_pair req (network e)).
    rewrite !existsb_map_compose. cbn [fst snd]. done. }
  assert (Hflag : skipWaitingCalled (create_if_absent w0 Barvy.CACHE) = true).
  { unfold create_if_absent. by destruct (caches w0 !! Barvy.CACHE). }
  assert (Hpart : ∀ n, partition (create_if_absent w0 Barvy.CACHE) n = partition w n).
  { intros n. by rewrite partition_create_if_absent. }
  rewrite Hrun. clear Hrun.
  destruct (open_fails e Barvy.CACHE).
  { cbn [fst snd]. split; [|split; [done|split; [done|done]]].
    split; [done|]. intros [? _]; done. }
  destruct (existsb (fun p => Barvy.refused _) Barvy.PRECACHE) eqn:Href.
  { cbn [fst snd]. split; [|split; [done|split; [done|done]]].
    split; [done|]. intros [_ Hall]. exfalso.
    apply not_false_iff_true in Href. apply Href, existsb_false_forall.
    intros p Hp. destruct (Hall p Hp) as (r & -> & Hok & _). simpl. by rewrite Hok. }
  destruct (existsb (fun p => is_pending _) Barvy.PRECACHE) eqn:Hpend.
  { cbn [fst snd]. split; [|split; [done|split; [done|done]]].
    split; [done|]. intros [_ Hall]. exfalso.
    apply not_false_iff_true in Hpend. apply Hpend, existsb_false_forall.
    intros p Hp. by destruct (Hall p Hp) as (r & -> & _). }
  destruct (existsb (fun p => match network e (req p) with
                              | Fulfilled r => _ | _ => false end) Barvy.PRECACHE) eqn:Hput.
  { cbn [fst snd]. split; [|split; [done|split; [done|done]]].
    split; [done|]. intros [_ Hall]. exfalso.
    apply not_false_iff_true in Hput. apply Hput, existsb_false_forall.
    intros p Hp. by destruct (Hall p Hp) as (r & -> & _ & ->). }
  cbn [fst snd]. split; [|split; [|split; [done|done]]].
  - split; [|done]. intros _. split; [done|]. intros p Hp.
    pose proof (proj1 (existsb_false_forall _ _) Href p Hp) as H1.
    pose proof (proj1 (existsb_false_forall _ _) Hpend p Hp) as H2.
    pose proof (proj1 (existsb_false_forall _ _) Hput p Hp) as H3.
    cbv beta in *. destruct (network e (req p)) as [r| |]; [|done|done].
    exists r. simpl in H1. apply negb_false_iff in H1. done.
  - intros _ p r Hp Hnet.
    rewrite partition_alter by apply create_if_absent_present.
    destruct (decide (Barvy.CACHE = Barvy.CACHE)); [|done].
    apply (fold_put_fetched_stored req (network e)); [|done|done].
    apply resolve_precache_NoDup.
Qed.

Lemma second_worker_install_outcome_witness :
  let e := sample_env (Fulfilled (sample_response 200 "barvy")) in
  let w := sample_worker ∅ in
  fst (Barvy.install e w) = Fulfilled tt
  ∧ entries_match (partition (snd (Barvy.install e w)) Barvy.CACHE) (page "video.mp4")
    = Some (sample_response 200 "barvy")
  ∧ (∀ n, partition (snd (Barvy.install flaky_env w)) n = partition w n).
Proof.
  destruct (second_worker_install_outcome
              (sample_env (Fulfilled (sample_response 200 "barvy"))) (sample_worker ∅))
    as (Hiff & Hstored & _).
  destruct (second_worker_install_outcome flaky_env (sample_worker ∅))
    as (_ & _ & Hnothing & _).
  assert (Hok : fst (Barvy.install (sample_env (Fulfilled (sample_response 200 "barvy")))
                       (sample_worker ∅)) = Fulfilled tt).
  { apply Hiff. split; [reflexivity|]. intros p _.
    exists (sample_response 200 "barvy"). repeat split; reflexivity. }
  split; [exact Hok|]. split.
  - apply (Hstored Hok "./video.mp4" (sample_response 200 "barvy")).
    + apply list_elem_of_In. simpl. tauto.
    + reflexivity.
  - apply Hnothing. vm_compute. discriminate.
Defined.

(** ** The second worker's activation *)

(** X18. Activation of the second worker keeps its own partition and no
    other.  When [caches.keys] and [caches.delete] are not rejected, it is
    fulfilled, every partition under another name is gone afterwards, with or
    without a prefix in common, its own partition is as it was, and the
    clients are claimed. *)
Theorem second_worker_activate_keeps_only_own e w :
  storage_keys_fails e = false →
  (∀ k, storage_delete_fails e k = false) →
  ∃ w', Barvy.activate e w = (Fulfilled tt, w')
        ∧ (∀ n, n ≠ Barvy.CACHE → caches w' !! n = None)
        ∧ caches w' !! Barvy.CACHE = caches w !! Barvy.CACHE
        ∧ clientsClaimed w' = true.
Proof.
  intros Hkeys Hdel.
  set (ds := List.filter (fun k => negb (String.eqb k Barvy.CACHE))
               (map fst (map_to_list (caches w)))).
  destruct (run_all_delete e ds w Hdel) as (m' & Hrun & Hm').
  exists (mkWorker m' (skipWaitingCalled w) true). split; [|split; [|split; [|done]]].
  - unfold Barvy.activate, bind, caches_keys, all, clients_claim.
    rewrite Hkeys. fold ds. rewrite Hrun. by rewrite !existsb_map_const.
  - intros n Hn. simpl. rewrite Hm'.
    destruct (decide (n ∈ ds)) as [|Hnin]; [done|].
    destruct (caches w !! n) as [es|] eqn:Hes; [|done].
    exfalso. apply Hnin. unfold ds. apply list_elem_of_In, filter_In. split.
    + apply list_elem_of_In, list_elem_of_fmap. exists (n, es).
      split; [done|]. by apply elem_of_map_to_list.
    + apply negb_true_iff, String.eqb_neq. done.
  - simpl. rewrite Hm'. rewrite decide_False; [done|].
    unfold ds. intros Hin%list_elem_of_In%filter_In. destruct Hin as [_ Hin].
    by rewrite String.eqb_refl in Hin.
Qed.

Lemma second_worker_activate_keeps_only_own_witness :
  let e := sample_env Rejected in
  let w := sample_worker store_with_old_generation in
  ∃ w', Barvy.activate e w = (Fulfilled tt, w')
        ∧ caches w' !! "notes-v1" = None
        ∧ caches w' !! CACHE_HTML = None
        ∧ caches w' !! "barvy-v7" = caches w !! "barvy-v7"
        ∧ is_Some (caches w' !! "barvy-v7").
Proof.
  destruct (second_worker_activate_keeps_only_own (sample_env Rejected)
              (sample_worker store_with_old_generation))
    as (w' & Hrun & Hgone & Hown & _).
  - reflexivity.
  - intros k. reflexivity.
  - exists w'. split; [exact Hrun|]. split; [|split; [|split]].
    + apply Hgone. discriminate.
    + apply Hgone. discriminate.
    + exact Hown.
    + change "barvy-v7" with Barvy.CACHE. rewrite Hown. vm_compute. eexists. reflexivity.
Defined.

(** ** Activation and trimming seen from the fetch listener *)

Lemma activate_keeps_current e w name :
  obsolete name = false →
  caches (snd (activate e w)) !! name = caches w !! name.
Proof.
  intros Hcur. unfold activate, bind at 1, caches_keys.
  destruct (storage_keys_fails e); [done|].
  destruct (run_all_cleanup_faulty e (map fst (map_to_list (caches w))) w)
    as (os & m' & Hrun & Hm' & _ & _).
  unfold bind, all, clients_claim. rewrite Hrun.
  assert (Hname : m' !! name = caches w !! name).
  { rewrite Hm', Hcur. simpl. by destruct (decide (name ∈ _)). }
  by destruct (existsb is_rejected os), (existsb is_pending os).
Qed.

(** X15. Retiring old generations is invisible to the fetch listener: a
    request is answered the same way after activation as before it,
    whatever the network does and even when the activation itself is
    rejected half way. *)
Theorem activation_transparent_to_fetch e' e w c req :
  fst (strategy c req e (snd (activate e' w))) = fst (strategy c req e w).
Proof.
  assert (Hh : partition (snd (activate e' w)) CACHE_HTML = partition w CACHE_HTML).
  { unfold partition. by rewrite activate_keeps_current. }
  assert (Ha : partition (snd (activate e' w)) CACHE_ASSETS = partition w CACHE_ASSETS).
  { unfold partition. by rewrite activate_keeps_current. }
  destruct c; simpl.
  - by rewrite !respond_html_outcome, Hh.
  - by rewrite !respond_asset_outcome, Ha.
  - by rewrite !respond_other_outcome, Ha.
Qed.

(** X16. [trimCache] on a partition that does not exist creates it, empty,
    and deletes nothing: [caches.open] is its first step. *)
Theorem trimCache_missing_partition e w name maxEntries :
  open_fails e name = false →
  keys_fails e name = false →
  caches w !! name = None →
  0 <= maxEntries →
  trimCache name maxEntries e w
  = (Fulfilled tt, set_caches w (<[name := []]> (caches w))).
Proof.
  intros Hopen Hkeys Hnone Hmax.
  unfold trimCache, bind, caches_open, cache_keys, create_if_absent, partition.
  rewrite Hopen, Hnone, Hkeys. simpl. rewrite lookup_insert_eq. simpl.
  change (Z.of_nat 0) with 0.
  by destruct (Z.leb_spec 0 maxEntries); [|lia].
Qed.

Lemma trimCache_missing_partition_witness :
  trimCache CACHE_ASSETS MAX_ASSET_ENTRIES (sample_env Rejected) (sample_worker ∅)
  = (Fulfilled tt,
     set_caches (sample_worker ∅) (<[CACHE_ASSETS := []]> (caches (sample_worker ∅)))).
Proof.
  apply trimCache_missing_partition.
  - reflexivity.
  - reflexivity.
  - reflexivity.
  - unfold MAX_ASSET_ENTRIES. lia.
Defined.
